(** * A shallow embedding of the Mellea plugin layer (mellea/plugins)

    Modules embedded:
    - [types.py]      : [PluginMode], [HookType], [_build_hook_registry],
                        [_register_mellea_hooks]
    - [base.py]       : [MelleaBasePayload], [PluginViolationError],
                        [MelleaPlugin.__enter__]/[__exit__] and its accessors
    - [context.py]    : [build_global_context]
    - [policies.py]   : [MELLEA_HOOK_PAYLOAD_POLICIES]
    - [decorators.py] : [HookMeta], [PluginMeta], the context-manager helpers
    - [pluginset.py]  : [PluginSet], [flatten], [__enter__]/[__exit__]
    - [registry.py]   : [_MODE_MAP], [_map_mode], [block], [register],
                        [_register_single], the two adapters
    - [manager.py]    : the module-level singleton state, [_track_session_plugin],
                        [deregister_session_plugins], [invoke_hook],
                        [initialize_plugins], [shutdown_plugins]

    The ContextForge framework ([mcpgateway.plugins.framework]) is not part of
    the sources; its plugin registry and its hook executor are modelled from
    the specification (and the behaviour that the test-suite documents), in
    definitions whose doc comment says so. *)

From Stdlib Require Import ZArith.
From stdpp Require Import base gmap sets list strings sorting pretty.

Open Scope Z_scope.

(* ------------------------------------------------------------------ *)
(** ** types.py *)

Inductive PluginMode := ENFORCE | PERMISSIVE | FIRE_AND_FORGET.

Inductive HookType :=
  | SESSION_PRE_INIT | SESSION_POST_INIT | SESSION_RESET | SESSION_CLEANUP
  | COMPONENT_PRE_CREATE | COMPONENT_POST_CREATE | COMPONENT_PRE_EXECUTE
  | COMPONENT_POST_SUCCESS | COMPONENT_POST_ERROR
  | GENERATION_PRE_CALL | GENERATION_POST_CALL | GENERATION_STREAM_CHUNK
  | VALIDATION_PRE_CHECK | VALIDATION_POST_CHECK
  | SAMPLING_LOOP_START | SAMPLING_ITERATION | SAMPLING_REPAIR | SAMPLING_LOOP_END
  | TOOL_PRE_INVOKE | TOOL_POST_INVOKE
  | ADAPTER_PRE_LOAD | ADAPTER_POST_LOAD | ADAPTER_PRE_UNLOAD | ADAPTER_POST_UNLOAD
  | CONTEXT_UPDATE | CONTEXT_PRUNE
  | ERROR_OCCURRED.

(** [HookType.value] *)
Definition hook_value (h : HookType) : string :=
  match h with
  | SESSION_PRE_INIT => "session_pre_init"
  | SESSION_POST_INIT => "session_post_init"
  | SESSION_RESET => "session_reset"
  | SESSION_CLEANUP => "session_cleanup"
  | COMPONENT_PRE_CREATE => "component_pre_create"
  | COMPONENT_POST_CREATE => "component_post_create"
  | COMPONENT_PRE_EXECUTE => "component_pre_execute"
  | COMPONENT_POST_SUCCESS => "component_post_success"
  | COMPONENT_POST_ERROR => "component_post_error"
  | GENERATION_PRE_CALL => "generation_pre_call"
  | GENERATION_POST_CALL => "generation_post_call"
  | GENERATION_STREAM_CHUNK => "generation_stream_chunk"
  | VALIDATION_PRE_CHECK => "validation_pre_check"
  | VALIDATION_POST_CHECK => "validation_post_check"
  | SAMPLING_LOOP_START => "sampling_loop_start"
  | SAMPLING_ITERATION => "sampling_iteration"
  | SAMPLING_REPAIR => "sampling_repair"
  | SAMPLING_LOOP_END => "sampling_loop_end"
  | TOOL_PRE_INVOKE => "tool_pre_invoke"
  | TOOL_POST_INVOKE => "tool_post_invoke"
  | ADAPTER_PRE_LOAD => "adapter_pre_load"
  | ADAPTER_POST_LOAD => "adapter_post_load"
  | ADAPTER_PRE_UNLOAD => "adapter_pre_unload"
  | ADAPTER_POST_UNLOAD => "adapter_post_unload"
  | CONTEXT_UPDATE => "context_update"
  | CONTEXT_PRUNE => "context_prune"
  | ERROR_OCCURRED => "error_occurred"
  end.

(* ------------------------------------------------------------------ *)
(** ** base.py: payloads and the violation error *)

(** [MelleaBasePayload]: the five base fields, and the point-specific fields
    of the concrete payload classes as a map from field name to value. *)
Record Payload := mkPayload {
  session_id : option string;
  request_id : string;
  timestamp : Z;
  hook : string;
  user_metadata : gmap string string;
  fields : gmap string string;
}.

(** The keys accepted by [model_copy(update=...)] in [invoke_hook]. *)
Inductive PayloadUpdate :=
  | UpdHook (v : string)
  | UpdSessionId (v : option string)
  | UpdRequestId (v : string).

(** [payload.model_copy(update=updates)]: a fresh record with the listed
    fields replaced, every other field copied. *)
Definition apply_update (p : Payload) (u : PayloadUpdate) : Payload :=
  match u with
  | UpdHook v => mkPayload (session_id p) (request_id p) (timestamp p) v
                           (user_metadata p) (fields p)
  | UpdSessionId v => mkPayload v (request_id p) (timestamp p) (hook p)
                                (user_metadata p) (fields p)
  | UpdRequestId v => mkPayload (session_id p) v (timestamp p) (hook p)
                                (user_metadata p) (fields p)
  end.

Definition model_copy (p : Payload) (updates : list PayloadUpdate) : Payload :=
  fold_left apply_update updates p.

(** [PluginViolationError] *)
Record PluginViolationError := mkPluginViolationError {
  err_hook_type : string;
  err_reason : string;
  err_code : string;
  err_plugin_name : string;
}.

(** [str(PluginViolationError(...))]: [f"Plugin blocked {hook_type}: {detail}{reason}"]
    with [detail = f"[{code}] " if code else ""]. *)
Definition violation_message (e : PluginViolationError) : string :=
  let detail := if String.eqb (err_code e) "" then ""
                else "[" +:+ err_code e +:+ "] " in
  "Plugin blocked " +:+ err_hook_type e +:+ ": " +:+ detail +:+ err_reason e.

(** The Python exceptions raised along the embedded paths. *)
Inductive Exc :=
  | ExcViolation (e : PluginViolationError)
  | RuntimeError (msg : string)
  | ValueError (msg : string)
  | TypeError (msg : string).

(* ------------------------------------------------------------------ *)
(** ** policies.py *)

Definition MELLEA_HOOK_PAYLOAD_POLICIES : gmap string (gset string) :=
  list_to_map [
    ("session_pre_init",
       list_to_set ["backend_name"; "model_id"; "model_options"; "backend_kwargs"]);
    ("component_pre_create",
       list_to_set ["description"; "images"; "requirements"; "icl_examples";
                    "grounding_context"; "user_variables"; "prefix"; "template_id"]);
    ("component_post_create", list_to_set ["component"]);
    ("component_pre_execute",
       list_to_set ["action"; "context"; "context_view"; "requirements";
                    "model_options"; "format"; "strategy"; "tool_calls_enabled"]);
    ("component_post_success", list_to_set ["result"]);
    ("generation_pre_call", list_to_set ["model_options"; "tools"; "format"]);
    ("generation_post_call", list_to_set ["model_output"]);
    ("generation_stream_chunk", list_to_set ["chunk"; "accumulated"]);
    ("validation_pre_check", list_to_set ["requirements"; "model_options"]);
    ("validation_post_check", list_to_set ["results"; "all_passed"]);
    ("sampling_loop_start", list_to_set ["loop_budget"]);
    ("sampling_repair", list_to_set ["repair_action"; "repair_context"]);
    ("sampling_loop_end", list_to_set ["final_result"]);
    ("tool_pre_invoke", list_to_set ["tool_args"]);
    ("tool_post_invoke", list_to_set ["tool_output"])
  ].

(* ------------------------------------------------------------------ *)
(** ** ContextForge result types (PluginViolation, PluginResult) *)

Record PluginViolation := mkPluginViolation {
  v_reason : string;
  v_description : string;
  v_code : string;
  v_details : gmap string string;
  v_plugin_name : option string;
}.

Record PluginResult := mkPluginResult {
  continue_processing : bool;
  modified_payload : option Payload;
  violation : option PluginViolation;
}.

(** [block(reason, code=..., description=..., details=...)] *)
Definition block (reason code description : string)
    (details : option (gmap string string)) : PluginResult :=
  mkPluginResult false None
    (Some (mkPluginViolation reason
             (if String.eqb description "" then reason else description)
             code
             (match details with Some d => d | None => ∅ end)
             None)).

(* ------------------------------------------------------------------ *)
(** ** decorators.py: metadata attached by [@hook] and [@plugin] *)

Record HookMeta := mkHookMeta {
  hm_hook_type : string;
  hm_mode : PluginMode;
  hm_priority : Z;
}.

Record PluginMeta := mkPluginMeta {
  pm_name : string;
  pm_priority : Z;
}.

(** [@hook(hook_type, mode=ENFORCE, priority=50)] *)
Definition hook_decorator (hook_type : string) (mode : PluginMode) (priority : Z)
  : HookMeta := mkHookMeta hook_type mode priority.

(** A hook callable: [None] is the Python [None] a handler may return. *)
Definition HookBody := Payload -> option PluginResult.

(* ------------------------------------------------------------------ *)
(** ** ContextForge plugin objects *)

Inductive CFPluginMode := CF_ENFORCE | CF_PERMISSIVE.

Record PluginConfig := mkPluginConfig {
  cfg_name : string;
  cfg_kind : string;
  cfg_hooks : list string;
  cfg_mode : CFPluginMode;
  cfg_priority : Z;
}.

(** A registered ContextForge [Plugin]: its configuration and the hook
    method found by attribute lookup ([getattr(plugin, hook_name)]). *)
Record Plugin := mkPlugin {
  plugin_config : PluginConfig;
  plugin_hook : string -> option (Payload -> PluginResult);
}.

Definition plugin_name (pl : Plugin) : string := cfg_name (plugin_config pl).

(* ------------------------------------------------------------------ *)
(** ** Registrable items and [PluginSet] *)

(** An attribute of a [@plugin] instance as [getattr(instance, name, None)]
    sees it: [None], or a value carrying (or not) a [_mellea_hook_meta]. *)
Inductive Attr :=
  | AttrNone
  | AttrVal (meta : option HookMeta) (body : HookBody).

(** A function object: [__qualname__], [__module__], [_mellea_hook_meta]. *)
Record HookFn := mkHookFn {
  fn_qualname : string;
  fn_module : string;
  fn_hook_meta : option HookMeta;
  fn_body : HookBody;
}.

(** An instance of a class: object identity, its class' module, qualname and
    [_mellea_plugin_meta], and [dir(instance)] with the attribute values. *)
Record PluginInstance := mkPluginInstance {
  inst_oid : nat;
  inst_module : string;
  inst_qualname : string;
  inst_plugin_meta : option PluginMeta;
  inst_dir : list (string * Attr);
}.

Inductive Item :=
  | IFn (fn : HookFn)
  | IInstance (inst : PluginInstance)
  | IMelleaPlugin (pl : Plugin)
  | ISet (ps : PluginSet)
  | IOther (repr : string)
with PluginSet :=
  | mkPluginSet (ps_oid : nat) (ps_name : string) (ps_items : list Item)
                (ps_priority : option Z).

Definition ps_oid (ps : PluginSet) : nat := let '(mkPluginSet o _ _ _) := ps in o.
Definition ps_items (ps : PluginSet) : list Item :=
  let '(mkPluginSet _ _ l _) := ps in l.
Definition ps_priority (ps : PluginSet) : option Z :=
  let '(mkPluginSet _ _ _ p) := ps in p.

(** [PluginSet.flatten] *)
Fixpoint flatten (ps : PluginSet) : list (Item * option Z) :=
  let '(mkPluginSet _ _ items priority) := ps in
  (fix go (l : list Item) : list (Item * option Z) :=
     match l with
     | [] => []
     | item :: rest =>
         match item with
         | ISet inner => flatten inner ++ go rest
         | _ => (item, priority) :: go rest
         end
     end) items.

(* ------------------------------------------------------------------ *)
(** ** registry.py: the mode map and the two adapters *)

Global Instance PluginMode_eq_dec : EqDecision PluginMode.
Proof. solve_decision. Defined.

(** [_MODE_MAP] (with the framework installed). *)
Definition _MODE_MAP : list (PluginMode * CFPluginMode) :=
  [(ENFORCE, CF_ENFORCE);
   (PERMISSIVE, CF_PERMISSIVE);
   (* fire_and_forget deferred: stored as enforce for now *)
   (FIRE_AND_FORGET, CF_ENFORCE)].

Fixpoint dict_get {K V} `{EqDecision K} (d : list (K * V)) (k : K) : option V :=
  match d with
  | [] => None
  | (k', v) :: rest => if decide (k = k') then Some v else dict_get rest k
  end.

(** [_map_mode(mode)] = [_MODE_MAP.get(mode, _MODE_MAP.get(PluginMode.ENFORCE))]. *)
Definition _map_mode (mode : PluginMode) : option CFPluginMode :=
  match dict_get _MODE_MAP mode with
  | Some m => Some m
  | None => dict_get _MODE_MAP ENFORCE
  end.

(** The adapters' wrappers: a handler returning [None] becomes
    [PluginResult(continue_processing=True, modified_payload=payload)]. *)
Definition wrap_body (body : HookBody) (payload : Payload) : PluginResult :=
  match body payload with
  | None => mkPluginResult true (Some payload) None
  | Some r => r
  end.

Definition priority_or (override : option Z) (default : Z) : Z :=
  match override with Some q => q | None => default end.

(** [_FunctionHookAdapter(fn, session_id, priority_override)]; [meta] is
    [fn._mellea_hook_meta], present whenever the adapter is built.  A mode
    that [_map_mode] cannot map is left to the framework's default. *)
Definition _FunctionHookAdapter (fn : HookFn) (meta : HookMeta)
    (priority_override : option Z) : Plugin :=
  let priority := priority_or priority_override (hm_priority meta) in
  mkPlugin
    (mkPluginConfig (fn_qualname fn)
                    (fn_module fn +:+ "." +:+ fn_qualname fn)
                    [hm_hook_type meta]
                    (default CF_ENFORCE (_map_mode (hm_mode meta)))
                    priority)
    (fun name => if String.eqb name (hm_hook_type meta)
                 then Some (wrap_body (fn_body fn)) else None).

(** [d[k] = v] on a Python dict (insertion ordered): an existing key keeps its
    place and gets the new value, a new key is appended. *)
Fixpoint dict_set {V} (d : list (string * V)) (k : string) (v : V)
  : list (string * V) :=
  match d with
  | [] => [(k, v)]
  | (k', v') :: rest =>
      if String.eqb k k' then (k, v) :: rest else (k', v') :: dict_set rest k v
  end.

(** The discovery loop of [_ClassPluginAdapter.__init__] over [dir(instance)]. *)
Definition discover_hook_methods (attrs : list (string * Attr))
  : list (string * (HookBody * HookMeta)) :=
  fold_left
    (fun hook_methods '(attr_name, attr) =>
       if String.prefix "_" attr_name then hook_methods
       else match attr with
            | AttrNone => hook_methods
            | AttrVal None _ => hook_methods
            | AttrVal (Some hook_meta) body =>
                dict_set hook_methods (hm_hook_type hook_meta) (body, hook_meta)
            end)
    attrs [].

(** [_ClassPluginAdapter(instance, plugin_meta, session_id, priority_override)].
    The config's [mode=PluginMode.ENFORCE] is Mellea's enum member, whose value
    ["enforce"] the framework's config model reads as its own ENFORCE. *)
Definition _ClassPluginAdapter (inst : PluginInstance) (plugin_meta : PluginMeta)
    (priority_override : option Z) : Plugin :=
  let hook_methods := discover_hook_methods (inst_dir inst) in
  let priority := priority_or priority_override (pm_priority plugin_meta) in
  mkPlugin
    (mkPluginConfig (pm_name plugin_meta)
                    (inst_module inst +:+ "." +:+ inst_qualname inst)
                    (map fst hook_methods)
                    CF_ENFORCE
                    priority)
    (fun name => match dict_get hook_methods name with
                 | Some (body, _) => Some (wrap_body body)
                 | None => None
                 end).

(* ------------------------------------------------------------------ *)
(** ** Process state: manager.py's module globals and the objects' [_scope_id] *)

(** The module-level singleton state of [manager.py] ([_plugin_manager], of
    which only its registry of plugins by name is observable here,
    [_plugins_enabled], [_session_tags]), the [_scope_id] attribute of each
    context-manager object (by object identity; absent = [None]), and the
    source of [uuid.uuid4()], drawn as a counter. *)
Record State := mkState {
  _plugin_manager : option (gmap string Plugin);
  _plugins_enabled : bool;
  _session_tags : gmap string (gset string);
  _scope_ids : gmap nat string;
  uuid_next : N;
}.

Definition set_manager (st : State) (m : option (gmap string Plugin)) : State :=
  mkState m (_plugins_enabled st) (_session_tags st) (_scope_ids st) (uuid_next st).
Definition set_enabled (st : State) (b : bool) : State :=
  mkState (_plugin_manager st) b (_session_tags st) (_scope_ids st) (uuid_next st).
Definition set_tags (st : State) (t : gmap string (gset string)) : State :=
  mkState (_plugin_manager st) (_plugins_enabled st) t (_scope_ids st) (uuid_next st).
Definition set_scope_ids (st : State) (s : gmap nat string) : State :=
  mkState (_plugin_manager st) (_plugins_enabled st) (_session_tags st) s (uuid_next st).
Definition set_uuid_next (st : State) (n : N) : State :=
  mkState (_plugin_manager st) (_plugins_enabled st) (_session_tags st) (_scope_ids st) n.

(** A state-and-exception monad: Python's mutations made before a [raise]
    stay visible, so the state is returned on both outcomes. *)
Definition M (A : Type) : Type := State -> State * (Exc + A).

Definition ret {A} (a : A) : M A := fun st => (st, inr a).
Definition raise {A} (e : Exc) : M A := fun st => (st, inl e).
Definition bind {A B} (m : M A) (k : A -> M B) : M B :=
  fun st => match m st with
            | (st', inl e) => (st', inl e)
            | (st', inr a) => k a st'
            end.
Definition modify (f : State -> State) : M unit := fun st => (f st, inr tt).
Definition gets {A} (f : State -> A) : M A := fun st => (st, inr (f st)).

Notation "'let!' x := m 'in' k" := (bind m (fun x => k))
  (at level 200, x name, m at level 100, k at level 200).
Notation "m >>> k" := (bind m (fun _ => k)) (at level 100, right associativity).

Fixpoint for_ {A} (l : list A) (f : A -> M unit) : M unit :=
  match l with
  | [] => ret tt
  | x :: rest => f x >>> for_ rest f
  end.

(** Python truthiness of an [str | None] argument ([if session_id:]). *)
Definition truthy (s : option string) : bool :=
  match s with Some v => negb (String.eqb v "") | None => false end.

(* ------------------------------------------------------------------ *)
(** ** The ContextForge plugin registry *)

(** Modelled from the spec: the ContextForge [PluginManager._registry]
    ([register]/[unregister]), which is not in the sources.  Plugins are
    keyed by name; registering a name that is already present raises
    [ValueError] (as the priority-ordering tests note), unregistering an
    absent name raises too (the caller in [deregister_session_plugins]
    catches it). *)
Definition registry_register (pl : Plugin) (reg : gmap string Plugin)
  : Exc + gmap string Plugin :=
  match reg !! plugin_name pl with
  | Some _ => inl (ValueError ("Plugin " +:+ plugin_name pl +:+ " already registered"))
  | None => inr (<[plugin_name pl := pl]> reg)
  end.

Definition registry_unregister (name : string) (reg : gmap string Plugin)
  : Exc + gmap string Plugin :=
  match reg !! name with
  | Some _ => inr (delete name reg)
  | None => inl (ValueError ("Plugin " +:+ name +:+ " not registered"))
  end.

(** [pm._registry.register(plugin)] on the current manager. *)
Definition pm_register (pl : Plugin) : M unit :=
  fun st =>
    match _plugin_manager st with
    | None => (st, inl (RuntimeError "no plugin manager"))
    | Some reg =>
        match registry_register pl reg with
        | inl e => (st, inl e)
        | inr reg' => (set_manager st (Some reg'), inr tt)
        end
    end.

(* ------------------------------------------------------------------ *)
(** ** manager.py: manager life cycle and scope tracking *)

(** [_ensure_plugin_manager()]: a fresh manager has an empty registry. *)
Definition _ensure_plugin_manager : M unit :=
  fun st =>
    match _plugin_manager st with
    | Some _ => (st, inr tt)
    | None => (set_enabled (set_manager st (Some ∅)) true, inr tt)
    end.

(** [_track_session_plugin(session_id, plugin_name)] *)
Definition _track_session_plugin (sid name : string) : M unit :=
  modify (fun st =>
    set_tags st (<[sid := {[name]} ∪ default ∅ (_session_tags st !! sid)]>
                   (_session_tags st))).

(** One iteration of the loop of [deregister_session_plugins]:
    [try: _plugin_manager._registry.unregister(name) except Exception: pass]. *)
Definition unregister_quiet (name : string) : M unit :=
  fun st =>
    match _plugin_manager st with
    | None => (st, inr tt)
    | Some reg =>
        match registry_unregister name reg with
        | inl _ => (st, inr tt)
        | inr reg' => (set_manager st (Some reg'), inr tt)
        end
    end.

(** [deregister_session_plugins(session_id)] *)
Definition deregister_session_plugins (sid : string) : M unit :=
  fun st =>
    if negb (_plugins_enabled st) then (st, inr tt) else
    match _plugin_manager st with
    | None => (st, inr tt)
    | Some _ =>
        let plugin_names := default ∅ (_session_tags st !! sid) in
        let st1 := set_tags st (delete sid (_session_tags st)) in
        for_ (elements plugin_names) unregister_quiet st1
    end.

(* ------------------------------------------------------------------ *)
(** ** registry.py: [register] and [_register_single] *)

Definition track_if (session_id : option string) (name : string) : M unit :=
  match session_id with
  | Some sid => if truthy session_id then _track_session_plugin sid name else ret tt
  | None => ret tt
  end.

Definition cannot_register : Exc :=
  TypeError "Cannot register item: expected a @hook-decorated function, a @plugin-decorated class instance, or a MelleaPlugin instance.".

(** [_register_single(pm, item, session_id, priority_override)] *)
Definition _register_single (item : Item) (session_id : option string)
    (priority_override : option Z) : M unit :=
  match item with
  | IFn fn =>
      match fn_hook_meta fn with
      | Some meta =>
          let adapter := _FunctionHookAdapter fn meta priority_override in
          pm_register adapter >>> track_if session_id (plugin_name adapter)
      | None => raise cannot_register
      end
  | IInstance inst =>
      match inst_plugin_meta inst with
      | Some plugin_meta =>
          let adapter := _ClassPluginAdapter inst plugin_meta priority_override in
          pm_register adapter >>> track_if session_id (plugin_name adapter)
      | None => raise cannot_register
      end
  | IMelleaPlugin pl => pm_register pl >>> track_if session_id (plugin_name pl)
  | ISet _ | IOther _ => raise cannot_register
  end.

(** [register(items, session_id=...)], with [items] already a list. *)
Definition register (items : list Item) (session_id : option string) : M unit :=
  _ensure_plugin_manager >>>
  for_ items (fun item =>
    match item with
    | ISet ps =>
        for_ (flatten ps) (fun '(flattened_item, priority_override) =>
          _register_single flattened_item session_id priority_override)
    | _ => _register_single item session_id None
    end).

(* ------------------------------------------------------------------ *)
(** ** Context managers: [PluginSet.__enter__/__exit__] and the helpers that
    [@plugin] installs ([_plugin_cm_enter], [_plugin_cm_exit]) *)

(** [str(uuid.uuid4())]: the next identifier of the counter. *)
Definition uuid4_str (n : N) : string := "uuid-" +:+ pretty n.

(** [PluginSet.__enter__] *)
Definition PluginSet__enter__ (ps : PluginSet) : M unit :=
  fun st =>
    match _scope_ids st !! ps_oid ps with
    | Some _ =>
        (st, inl (RuntimeError "PluginSet is already active as a context manager."))
    | None =>
        let scope := uuid4_str (uuid_next st) in
        let st1 := set_scope_ids (set_uuid_next st (N.succ (uuid_next st)))
                                 (<[ps_oid ps := scope]> (_scope_ids st)) in
        register [ISet ps] (Some scope) st1
    end.

(** [PluginSet.__exit__] *)
Definition PluginSet__exit__ (ps : PluginSet) : M unit :=
  fun st =>
    match _scope_ids st !! ps_oid ps with
    | Some scope =>
        (deregister_session_plugins scope >>>
         modify (fun st' => set_scope_ids st' (delete (ps_oid ps) (_scope_ids st')))) st
    | None => (st, inr tt)
    end.

(** [_plugin_cm_enter(self)] *)
Definition _plugin_cm_enter (self : PluginInstance) : M unit :=
  fun st =>
    match _scope_ids st !! inst_oid self with
    | Some _ =>
        (st, inl (RuntimeError "Plugin is already active as a context manager."))
    | None =>
        let scope := uuid4_str (uuid_next st) in
        let st1 := set_scope_ids (set_uuid_next st (N.succ (uuid_next st)))
                                 (<[inst_oid self := scope]> (_scope_ids st)) in
        register [IInstance self] (Some scope) st1
    end.

(** [_plugin_cm_exit(self, ...)] *)
Definition _plugin_cm_exit (self : PluginInstance) : M unit :=
  fun st =>
    match _scope_ids st !! inst_oid self with
    | Some scope =>
        (deregister_session_plugins scope >>>
         modify (fun st' => set_scope_ids st' (delete (inst_oid self) (_scope_ids st')))) st
    | None => (st, inr tt)
    end.

(* ------------------------------------------------------------------ *)
(** ** The ContextForge hook executor *)

Definition prio_le (a b : Plugin) : Prop :=
  (cfg_priority (plugin_config a) <= cfg_priority (plugin_config b))%Z.

Global Instance prio_le_dec : RelDecision prio_le.
Proof. intros a b. unfold prio_le. apply Z.le_dec. Defined.

Definition subscribed (h : string) (pl : Plugin) : bool :=
  bool_decide (h ∈ cfg_hooks (plugin_config pl)).

(** Modelled from the spec: [PluginManager.has_hooks_for] (framework code):
    some registered plugin subscribes to the hook. *)
Definition has_hooks_for (reg : gmap string Plugin) (h : string) : bool :=
  negb (bool_decide (filter (fun pl => subscribed h pl = true)
                            (map snd (map_to_list reg)) = [])).

(** Modelled from the spec: the plugins the framework runs for a hook, those
    subscribed to it, stably sorted by ascending priority (ties unordered). *)
Definition hook_plugins (reg : gmap string Plugin) (h : string) : list Plugin :=
  merge_sort prio_le
    (filter (fun pl => subscribed h pl = true) (map snd (map_to_list reg))).

(** Modelled from the spec: the policy filter of a proposed payload (step
    4d): only the writable fields of the hook's policy are taken from the
    proposal; a hook absent from the table takes it whole (the observed
    allow-by-default of the design notes). *)
Definition apply_policy (h : string) (current proposed : Payload) : Payload :=
  match MELLEA_HOOK_PAYLOAD_POLICIES !! h with
  | None => proposed
  | Some writable =>
      mkPayload (session_id current) (request_id current) (timestamp current)
                (hook current) (user_metadata current)
                (filter (fun kv => kv.1 ∈ writable) (fields proposed) ∪
                 filter (fun kv => kv.1 ∉ writable) (fields current))
  end.

Definition name_violation (name : string) (v : PluginViolation) : PluginViolation :=
  mkPluginViolation (v_reason v) (v_description v) (v_code v) (v_details v) (Some name).

(** Modelled from the spec: the framework's executor loop (step 4 of the
    dispatcher).  Plugins run in order on the current payload; an enforcing
    block stops the chain and is returned with the violation's [plugin_name]
    set to the blocking plugin's name; a permissive block is logged and the
    loop goes on without taking a mutation; at the end the aggregate result
    continues with the final payload.  The second component lists the
    plugins that ran, in order. *)
Fixpoint cf_execute (h : string) (pls : list Plugin) (p : Payload)
  : PluginResult * list string :=
  match pls with
  | [] => (mkPluginResult true (Some p) None, [])
  | pl :: rest =>
      match plugin_hook pl h with
      | None => cf_execute h rest p
      | Some f =>
          let r := f p in
          let '(res, ran) :=
            if continue_processing r then
              cf_execute h rest
                (match modified_payload r with
                 | Some q => apply_policy h p q
                 | None => p
                 end)
            else
              match cfg_mode (plugin_config pl) with
              | CF_ENFORCE =>
                  (mkPluginResult false (modified_payload r)
                     (option_map (name_violation (plugin_name pl)) (violation r)), [])
              | CF_PERMISSIVE => cf_execute h rest p
              end in
          (res, plugin_name pl :: ran)
      end
  end.

(** Modelled from the spec: [PluginManager.invoke_hook(..., violations_as_exceptions=False)]. *)
Definition cf_invoke_hook (reg : gmap string Plugin) (h : string) (p : Payload)
  : PluginResult * list string :=
  cf_execute h (hook_plugins reg h) p.

(** The handler calls a run of [cf_execute] makes, in order, each with the
    payload it receives. *)
Fixpoint cf_calls (h : string) (pls : list Plugin) (p : Payload)
  : list (Plugin * Payload) :=
  match pls with
  | [] => []
  | pl :: rest =>
      match plugin_hook pl h with
      | None => cf_calls h rest p
      | Some f =>
          let r := f p in
          (pl, p) ::
          (if continue_processing r then
             cf_calls h rest
               (match modified_payload r with
                | Some q => apply_policy h p q
                | None => p
                end)
           else
             match cfg_mode (plugin_config pl) with
             | CF_ENFORCE => []
             | CF_PERMISSIVE => cf_calls h rest p
             end)
      end
  end.

(** The enforcing handlers that block among the given calls. *)
Definition enforcing_blocks (h : string) (calls : list (Plugin * Payload)) : list string :=
  omap (fun '(pl, q) =>
          match cfg_mode (plugin_config pl), plugin_hook pl h with
          | CF_ENFORCE, Some f =>
              if continue_processing (f q) then None else Some (plugin_name pl)
          | _, _ => None
          end) calls.

(* ------------------------------------------------------------------ *)
(** ** manager.py: [invoke_hook] *)

(** The [updates] dict built by [invoke_hook] before [model_copy]. *)
Definition dispatch_updates (hook_type : HookType) (payload : Payload)
    (sid : option string) (rid : string) : list PayloadUpdate :=
  [UpdHook (hook_value hook_type)] ++
  (match sid with Some s => [UpdSessionId (Some s)] | None => [] end) ++
  (if String.eqb (request_id payload) "" then [UpdRequestId rid] else []).

Definition stamp_payload (hook_type : HookType) (payload : Payload)
    (sid : option string) (rid : string) : Payload :=
  model_copy payload (dispatch_updates hook_type payload sid rid).

(** [invoke_hook(hook_type, payload, *, session_id=None, request_id="")].
    The global context handed to the framework carries no payload data and
    is left out. *)
Definition invoke_hook (hook_type : HookType) (payload : Payload)
    (sid : option string) (rid : string) : M (option PluginResult * Payload) :=
  fun st =>
    if negb (_plugins_enabled st) then (st, inr (None, payload)) else
    match _plugin_manager st with
    | None => (st, inr (None, payload))
    | Some reg =>
        if negb (has_hooks_for reg (hook_value hook_type)) then
          (st, inr (None, payload))
        else
          let payload1 := stamp_payload hook_type payload sid rid in
          let '(result, _) := cf_invoke_hook reg (hook_value hook_type) payload1 in
          match continue_processing result, violation result with
          | false, Some v =>
              (st, inl (ExcViolation
                          (mkPluginViolationError (hook_value hook_type)
                             (v_reason v) (v_code v)
                             (default "" (v_plugin_name v)))))
          | _, _ =>
              (st, inr (Some result,
                        match modified_payload result with
                        | Some m => m
                        | None => payload1
                        end))
          end
    end.

(* ------------------------------------------------------------------ *)
(** ** Concrete inputs used by the witnesses *)

Definition init_state : State := mkState None false ∅ ∅ 0%N.

Definition empty_payload : Payload := mkPayload None "" 0 "" ∅ ∅.

(** [@hook("session_pre_init", mode=ENFORCE, priority=10)] returning
    [block("Access denied", code="AUTH_001")]. *)
Definition auth_hook : HookFn :=
  mkHookFn "auth_hook" "test_blocking"
    (Some (hook_decorator "session_pre_init" ENFORCE 10))
    (fun _ => Some (block "Access denied" "AUTH_001" "" None)).

Definition after_register_auth : State := fst (register [IFn auth_hook] None init_state).

(** A permissive blocker at priority 5 and an enforcing observer at 10. *)
Definition permissive_blocker : HookFn :=
  mkHookFn "permissive_block" "test_execution_modes"
    (Some (hook_decorator "session_pre_init" PERMISSIVE 5))
    (fun _ => Some (block "Would block, but permissive" "PERM_001" "" None)).

Definition enforce_observer : HookFn :=
  mkHookFn "enforce_observer" "test_execution_modes"
    (Some (hook_decorator "session_pre_init" ENFORCE 10))
    (fun _ => None).

(** A [@plugin("guard", priority=30)] class whose [dir()] lists an injected
    dunder, a private tagged helper and two public methods both tagged for
    [session_pre_init] (priorities 1 and 99). *)
Definition guard_meta : PluginMeta := mkPluginMeta "guard" 30.
Definition check_a_body : HookBody := fun _ => None.
Definition check_b_body : HookBody := fun _ => Some (block "no" "G1" "" None).
Definition check_a_meta : HookMeta := hook_decorator "session_pre_init" ENFORCE 1.
Definition check_b_meta : HookMeta := hook_decorator "session_pre_init" ENFORCE 99.
Definition guard_instance : PluginInstance :=
  mkPluginInstance 7 "guards" "Guard" (Some guard_meta)
    [("__enter__", AttrVal None (fun _ => None));
     ("_private", AttrVal (Some (hook_decorator "tool_pre_invoke" ENFORCE 0))
                          (fun _ => None));
     ("check_a", AttrVal (Some check_a_meta) check_a_body);
     ("check_b", AttrVal (Some check_b_meta) check_b_body);
     ("helper", AttrNone)].

(* ================================================================== *)
(** * Properties *)

Lemma filter_nil_all {A} (P : A -> Prop) `{forall x, Decision (P x)} (l : list A) :
  (forall x, x ∈ l -> ~ P x) -> filter P l = [].
Proof.
  induction l as [|a l IH]; intros Hall; [done|].
  rewrite filter_cons. rewrite decide_False.
  - apply IH. intros x Hx. apply Hall. by right.
  - apply Hall. by left.
Qed.

Lemma in_registry_values (reg : gmap string Plugin) (pl : Plugin) :
  pl ∈ map snd (map_to_list reg) -> exists k, reg !! k = Some pl.
Proof.
  intros Hin. apply list_elem_of_fmap in Hin as [[k pl'] [-> Hkv]].
  exists k. by apply elem_of_map_to_list in Hkv.
Qed.

Lemma has_hooks_for_none (reg : gmap string Plugin) (h : string) :
  (forall k pl, reg !! k = Some pl -> subscribed h pl = false) ->
  has_hooks_for reg h = false.
Proof.
  intros Hnone. unfold has_hooks_for.
  rewrite filter_nil_all; [done|].
  intros pl Hin. apply in_registry_values in Hin as [k Hk].
  rewrite (Hnone k pl Hk). discriminate.
Qed.

(** C1.  With plugins disabled, no manager, or no registered handler
    subscribed to the hook, [invoke_hook] returns [(None, payload)] with the
    very payload it was given, leaves the state alone and raises nothing. *)
Theorem invoke_hook_guard_passthrough (hook_type : HookType) (payload : Payload)
    (sid : option string) (rid : string) (st : State) :
  (_plugins_enabled st = false \/ _plugin_manager st = None \/
   exists reg, _plugin_manager st = Some reg /\
     (forall k pl, reg !! k = Some pl -> subscribed (hook_value hook_type) pl = false)) ->
  invoke_hook hook_type payload sid rid st = (st, inr (None, payload)).
Proof.
  intros Hguard. unfold invoke_hook.
  destruct (_plugins_enabled st) eqn:He; [|reflexivity]. cbn.
  destruct (_plugin_manager st) as [reg|] eqn:Hm; [|reflexivity].
  destruct Hguard as [Hf | [Hn | [reg' [Hreg Hnone]]]]; [congruence|congruence|].
  simplify_eq.
  rewrite (has_hooks_for_none _ _ Hnone). reflexivity.
Qed.

Lemma invoke_hook_guard_passthrough_witness :
  invoke_hook SESSION_PRE_INIT empty_payload (Some "s") "r" init_state
  = (init_state, inr (None, empty_payload)).
Proof.
  apply invoke_hook_guard_passthrough. left. reflexivity.
Defined.

(** ** Groups: [PluginSet.flatten] *)

Definition is_set (it : Item) : bool :=
  match it with ISet _ => true | _ => false end.

Lemma flatten_nil (o : nat) (n : string) (p : option Z) :
  flatten (mkPluginSet o n [] p) = [].
Proof. reflexivity. Qed.

Lemma flatten_cons (o : nat) (n : string) (it : Item) (rest : list Item) (p : option Z) :
  flatten (mkPluginSet o n (it :: rest) p)
  = match it with ISet inner => flatten inner | _ => [(it, p)] end
    ++ flatten (mkPluginSet o n rest p).
Proof. destruct it; reflexivity. Qed.

Definition inner_group : PluginSet := mkPluginSet 2 "inner" [IFn auth_hook] (Some 10).
Definition outer_group : PluginSet :=
  mkPluginSet 1 "outer" [ISet inner_group; IFn enforce_observer] (Some 20).

(** C3 (counterexample).  The outer group's priority does not reach the items
    of a nested group: flattening [outer (priority 20)] that holds
    [inner (priority 10)] holding [auth_hook] pairs [auth_hook] with 10, and
    the pair with 20 is absent. *)
Lemma flatten_outer_priority_counterexample :
  flatten outer_group = [(IFn auth_hook, Some 10); (IFn enforce_observer, Some 20)] /\
  (IFn auth_hook, Some 20) ∉ flatten outer_group.
Proof.
  split; [reflexivity|].
  cbn. rewrite !elem_of_cons. intros [H | [H | H]].
  - inversion H.
  - inversion H.
  - by apply not_elem_of_nil in H.
Qed.

(** C3 (amended).  Flattening a group with priority [P] yields exactly the
    pairs [(item, P)] for the items held directly by the group that are not
    groups, and, for each nested group, the pairs that the nested group's own
    flattening yields (its own priority, possibly none). *)
Theorem flatten_effective_priority (ps : PluginSet) (it : Item) (q : option Z) :
  (it, q) ∈ flatten ps <->
  (it ∈ ps_items ps /\ is_set it = false /\ q = ps_priority ps) \/
  (exists inner, ISet inner ∈ ps_items ps /\ (it, q) ∈ flatten inner).
Proof.
  destruct ps as [o n items p]. cbn [ps_items ps_priority].
  induction items as [|i rest IH].
  - rewrite flatten_nil. split.
    + intros H. by apply not_elem_of_nil in H.
    + intros [[H _] | [inner [H _]]]; by apply not_elem_of_nil in H.
  - rewrite flatten_cons, elem_of_app, IH. split.
    + intros [Hhead | [[Hin [Hs Hq]] | [inner [Hin Hfl]]]].
      * destruct i as [f|inst|pl|inner|r];
          try (apply list_elem_of_singleton in Hhead; simplify_eq;
               left; refine (conj _ (conj eq_refl eq_refl));
               apply elem_of_cons; by left).
        right. exists inner. split; [apply elem_of_cons; by left | done].
      * left. split; [apply elem_of_cons; by right | done].
      * right. exists inner. split; [apply elem_of_cons; by right | done].
    + intros [[Hin [Hs Hq]] | [inner [Hin Hfl]]].
      * apply elem_of_cons in Hin as [-> | Hin].
        -- left. subst q. destruct i; try discriminate; by apply list_elem_of_singleton.
        -- right. left. done.
      * apply elem_of_cons in Hin as [Heq | Hin].
        -- left. subst i. done.
        -- right. right. exists inner. done.
Qed.

(** ** Execution modes: [_MODE_MAP] *)

(** C5.  [_map_mode] sends [FIRE_AND_FORGET] where it sends [ENFORCE], so
    registering a [@hook] function declared fire-and-forget has exactly the
    effect of registering it declared enforcing, on every state, and every
    later dispatch from the two resulting states is the same. *)
Theorem fire_and_forget_registers_as_enforce
    (qualname module ht : string) (priority : Z) (body : HookBody)
    (sid : option string) (st : State) :
  let fn_ff := mkHookFn qualname module
                 (Some (hook_decorator ht FIRE_AND_FORGET priority)) body in
  let fn_en := mkHookFn qualname module
                 (Some (hook_decorator ht ENFORCE priority)) body in
  _map_mode FIRE_AND_FORGET = _map_mode ENFORCE /\
  register [IFn fn_ff] sid st = register [IFn fn_en] sid st /\
  (forall hook_type payload sid' rid,
     invoke_hook hook_type payload sid' rid (fst (register [IFn fn_ff] sid st))
     = invoke_hook hook_type payload sid' rid (fst (register [IFn fn_en] sid st))).
Proof.
  intros fn_ff fn_en.
  assert (Hreg : register [IFn fn_ff] sid st = register [IFn fn_en] sid st)
    by reflexivity.
  split; [reflexivity|]. split; [exact Hreg|].
  intros. by rewrite Hreg.
Qed.

(** ** Dispatch-time stamping in [invoke_hook] *)

Definition payload_with_session : Payload :=
  mkPayload (Some "caller-session") "" 0 "" ∅ ∅.

(** C6 (counterexample).  Not every other field keeps its value: when a
    [session_id] is passed, the stamped copy carries it in place of the
    caller's. *)
Lemma stamp_overwrites_session_counterexample :
  session_id (stamp_payload SESSION_PRE_INIT payload_with_session (Some "dispatch") "r")
  = Some "dispatch" /\
  session_id (stamp_payload SESSION_PRE_INIT payload_with_session (Some "dispatch") "r")
  <> session_id payload_with_session.
Proof. split; [reflexivity | discriminate]. Qed.

(** C6 (amended).  The payload handed to the framework is a copy whose [hook]
    is the dispatched point's name, whose [request_id] is the given one only
    when the incoming one is empty, whose [session_id] is the given session id
    when one is passed (kept otherwise), and whose other fields are the
    caller's. *)
Theorem stamp_payload_fields (hook_type : HookType) (payload : Payload)
    (sid : option string) (rid : string) :
  let p1 := stamp_payload hook_type payload sid rid in
  hook p1 = hook_value hook_type /\
  request_id p1 = (if String.eqb (request_id payload) "" then rid
                   else request_id payload) /\
  session_id p1 = (match sid with Some s => Some s | None => session_id payload end) /\
  timestamp p1 = timestamp payload /\
  user_metadata p1 = user_metadata payload /\
  fields p1 = fields payload.
Proof.
  unfold stamp_payload, dispatch_updates, model_copy.
  destruct sid as [s|]; destruct (String.eqb (request_id payload) "");
    cbn; repeat split.
Qed.

(** ** Bundles: [_ClassPluginAdapter] *)

Lemma dict_set_keys {V} (d : list (string * V)) (k x : string) (v : V) :
  x ∈ map fst (dict_set d k v) <-> x = k \/ x ∈ map fst d.
Proof.
  induction d as [|[k' v'] rest IH]; cbn.
  - rewrite elem_of_cons. split; [intros [H|H]; [by left | by apply not_elem_of_nil in H]|].
    intros [H|H]; [by left | by apply not_elem_of_nil in H].
  - destruct (String.eqb_spec k k') as [->|Hne]; cbn; rewrite !elem_of_cons.
    + tauto.
    + rewrite IH. tauto.
Qed.

Lemma dict_set_nodup {V} (d : list (string * V)) (k : string) (v : V) :
  NoDup (map fst d) -> NoDup (map fst (dict_set d k v)).
Proof.
  induction d as [|[k' v'] rest IH]; cbn; intros Hnd.
  - constructor; [apply not_elem_of_nil | constructor].
  - apply NoDup_cons in Hnd as [Hnotin Hnd].
    destruct (String.eqb_spec k k') as [->|Hne]; cbn.
    + by constructor.
    + constructor; [|by apply IH].
      rewrite dict_set_keys. intros [H|H]; [congruence | done].
Qed.

Lemma dict_get_set {V} (d : list (string * V)) (k x : string) (v : V) :
  dict_get (dict_set d k v) x = if decide (x = k) then Some v else dict_get d x.
Proof.
  induction d as [|[k' v'] rest IH]; cbn.
  - reflexivity.
  - destruct (String.eqb_spec k k') as [->|Hne]; cbn.
    + destruct (decide (x = k')); reflexivity.
    + rewrite IH. destruct (decide (x = k)), (decide (x = k')); congruence.
Qed.

Lemma dict_get_key {V} (d : list (string * V)) (x : string) (v : V) :
  dict_get d x = Some v -> x ∈ map fst d.
Proof.
  induction d as [|[k' v'] rest IH]; cbn; [discriminate|].
  rewrite elem_of_cons. destruct (decide (x = k')); [by left|].
  intros H. right. by apply IH.
Qed.

Definition public_attr (a : string * Attr) : Prop := String.prefix "_" a.1 = false.

Global Instance public_attr_dec (a : string * Attr) : Decision (public_attr a).
Proof. unfold public_attr. apply _. Defined.

Definition discover_step (hook_methods : list (string * (HookBody * HookMeta)))
    (a : string * Attr) : list (string * (HookBody * HookMeta)) :=
  let '(attr_name, attr) := a in
  if String.prefix "_" attr_name then hook_methods
  else match attr with
       | AttrNone => hook_methods
       | AttrVal None _ => hook_methods
       | AttrVal (Some hook_meta) body =>
           dict_set hook_methods (hm_hook_type hook_meta) (body, hook_meta)
       end.

Lemma discover_hook_methods_fold (attrs : list (string * Attr)) :
  discover_hook_methods attrs = fold_left discover_step attrs [].
Proof. reflexivity. Qed.

Lemma discover_skips_private (attrs : list (string * Attr)) acc :
  fold_left discover_step attrs acc = fold_left discover_step (filter public_attr attrs) acc.
Proof.
  revert acc. induction attrs as [|[n a] rest IH]; intros acc; [reflexivity|].
  rewrite filter_cons. destruct (String.prefix "_" n) eqn:Hp.
  - rewrite decide_False by (unfold public_attr; cbn; rewrite Hp; discriminate).
    cbn. rewrite Hp. apply IH.
  - rewrite decide_True by (unfold public_attr; cbn; exact Hp). cbn. apply IH.
Qed.

Lemma discover_nodup (attrs : list (string * Attr)) acc :
  NoDup (map fst acc) -> NoDup (map fst (fold_left discover_step attrs acc)).
Proof.
  revert acc. induction attrs as [|[n a] rest IH]; intros acc Hnd; [done|].
  cbn. apply IH. destruct (String.prefix "_" n); [done|].
  destruct a as [|[m|] body]; try done. by apply dict_set_nodup.
Qed.

Lemma discover_origin (attrs : list (string * Attr)) acc h body meta :
  dict_get (fold_left discover_step attrs acc) h = Some (body, meta) ->
  dict_get acc h = Some (body, meta) \/
  exists name, String.prefix "_" name = false /\
               (name, AttrVal (Some meta) body) ∈ attrs /\ hm_hook_type meta = h.
Proof.
  revert acc. induction attrs as [|[n a] rest IH]; intros acc Hget; [by left|].
  cbn in Hget. apply IH in Hget as [Hacc | [name [Hp [Hin Hh]]]].
  - destruct (String.prefix "_" n) eqn:Hp; [by left|].
    destruct a as [|[m|] b]; try by left.
    rewrite dict_get_set in Hacc. destruct (decide (h = hm_hook_type m)) as [->|Hne].
    + injection Hacc as <- <-. right. exists n. split; [done|].
      split; [apply elem_of_cons; by left | done].
    + by left.
  - right. exists name. split; [done|]. split; [apply elem_of_cons; by right | done].
Qed.

Definition with_dir (inst : PluginInstance) (attrs : list (string * Attr)) : PluginInstance :=
  mkPluginInstance (inst_oid inst) (inst_module inst) (inst_qualname inst)
                   (inst_plugin_meta inst) attrs.

(** C10.  Hook-method discovery of a [@plugin] instance never looks at an
    attribute whose name starts with an underscore (the adapter is the same
    whatever those attributes hold), the bundle subscribes to each hook point
    at most once, and the method kept for a point is one of the public
    attributes tagged with that point. *)
Theorem class_adapter_discovery (inst : PluginInstance) (plugin_meta : PluginMeta)
    (priority_override : option Z) :
  (forall attrs', filter public_attr attrs' = filter public_attr (inst_dir inst) ->
     _ClassPluginAdapter (with_dir inst attrs') plugin_meta priority_override
     = _ClassPluginAdapter inst plugin_meta priority_override) /\
  NoDup (cfg_hooks (plugin_config
           (_ClassPluginAdapter inst plugin_meta priority_override))) /\
  (forall h body meta,
     dict_get (discover_hook_methods (inst_dir inst)) h = Some (body, meta) ->
     exists name, String.prefix "_" name = false /\
                  (name, AttrVal (Some meta) body) ∈ inst_dir inst /\
                  hm_hook_type meta = h).
Proof.
  split; [|split].
  - intros attrs' Hf. unfold _ClassPluginAdapter. cbn [inst_dir with_dir].
    rewrite !discover_hook_methods_fold.
    rewrite (discover_skips_private attrs'), (discover_skips_private (inst_dir inst)), Hf.
    reflexivity.
  - cbn. rewrite discover_hook_methods_fold. apply discover_nodup. constructor.
  - intros h body meta Hget. rewrite discover_hook_methods_fold in Hget.
    apply discover_origin in Hget as [Hnil | Hor]; [discriminate | exact Hor].
Qed.

Lemma class_adapter_discovery_witness :
  cfg_hooks (plugin_config (_ClassPluginAdapter guard_instance guard_meta None))
  = ["session_pre_init"] /\
  NoDup (cfg_hooks (plugin_config (_ClassPluginAdapter guard_instance guard_meta None))) /\
  exists name, String.prefix "_" name = false /\
    (name, AttrVal (Some check_b_meta) check_b_body) ∈ inst_dir guard_instance /\
    hm_hook_type check_b_meta = "session_pre_init".
Proof.
  destruct (class_adapter_discovery guard_instance guard_meta None) as [_ [Hnd Hor]].
  split; [reflexivity|]. split; [exact Hnd|].
  apply (Hor "session_pre_init" check_b_body check_b_meta). reflexivity.
Defined.

Lemma track_if_manager (sid : option string) (name : string) (st : State) :
  _plugin_manager (fst (track_if sid name st)) = _plugin_manager st /\
  snd (track_if sid name st) = inr tt.
Proof.
  unfold track_if. destruct sid as [s|]; [destruct (truthy (Some s))|]; done.
Qed.

(** C4.  A bundle's adapter has one priority, the bundle's declared one, or
    the override passed at registration (from an enclosing group); every
    discovered hook method is subscribed under it, whatever priority its own
    [@hook] declared; and registering the instance puts that adapter in the
    registry under the bundle's name. *)
Theorem class_adapter_bundle_priority (inst : PluginInstance) (plugin_meta : PluginMeta)
    (priority_override : option Z) :
  let adapter := _ClassPluginAdapter inst plugin_meta priority_override in
  cfg_priority (plugin_config adapter) = priority_or priority_override (pm_priority plugin_meta) /\
  (forall h body meta,
     dict_get (discover_hook_methods (inst_dir inst)) h = Some (body, meta) ->
     h ∈ cfg_hooks (plugin_config adapter) /\ is_Some (plugin_hook adapter h) /\
     cfg_priority (plugin_config adapter)
     = priority_or priority_override (pm_priority plugin_meta)) /\
  (forall sid st st',
     inst_plugin_meta inst = Some plugin_meta ->
     _register_single (IInstance inst) sid priority_override st = (st', inr tt) ->
     exists reg', _plugin_manager st' = Some reg' /\
                  reg' !! pm_name plugin_meta = Some adapter).
Proof.
  cbv zeta. split; [reflexivity|]. split.
  - intros h body meta Hget. split; [|split; [|reflexivity]].
    + cbn. by apply dict_get_key in Hget.
    + cbn. rewrite Hget. by eexists.
  - intros sid st st' Hmeta Hrun.
    set (adapter := _ClassPluginAdapter inst plugin_meta priority_override) in *.
    unfold _register_single in Hrun. rewrite Hmeta in Hrun. fold adapter in Hrun.
    unfold bind, pm_register in Hrun.
    destruct (_plugin_manager st) as [reg|] eqn:Hm; [|cbn in Hrun; discriminate].
    unfold registry_register in Hrun.
    destruct (reg !! plugin_name adapter) eqn:Hl; [cbn in Hrun; discriminate|].
    pose proof (track_if_manager sid (plugin_name adapter)
      (set_manager st (Some (<[plugin_name adapter:=adapter]> reg)))) as [Hpm _].
    rewrite Hrun in Hpm. cbn in Hpm. rewrite Hpm.
    eexists. split; [reflexivity|]. apply lookup_insert_eq.
Qed.

Lemma class_adapter_bundle_priority_witness :
  cfg_priority (plugin_config (_ClassPluginAdapter guard_instance guard_meta None)) = 30 /\
  cfg_priority (plugin_config (_ClassPluginAdapter guard_instance guard_meta (Some 5))) = 5 /\
  exists reg', _plugin_manager (fst (register [IInstance guard_instance] None init_state))
               = Some reg' /\
               reg' !! "guard" = Some (_ClassPluginAdapter guard_instance guard_meta None).
Proof.
  split; [apply (class_adapter_bundle_priority guard_instance guard_meta None)|].
  split; [apply (class_adapter_bundle_priority guard_instance guard_meta (Some 5))|].
  destruct (class_adapter_bundle_priority guard_instance guard_meta None) as [_ [_ Hreg]].
  apply (Hreg None (set_enabled (set_manager init_state (Some ∅)) true)); reflexivity.
Defined.

(** ** The dispatch: blocks and violations *)

Lemma last_cons_some {A} (x y : A) (l : list A) :
  last l = Some y -> last (x :: l) = Some y.
Proof. destruct l as [|z l]; [discriminate|]. by rewrite last_cons_cons. Qed.

Lemma in_hook_plugins (reg : gmap string Plugin) (h : string) (pl : Plugin) :
  pl ∈ hook_plugins reg h -> exists k, reg !! k = Some pl.
Proof.
  unfold hook_plugins. rewrite (merge_sort_Permutation _ _).
  intros Hin. apply list_elem_of_filter in Hin as [_ Hin].
  by apply in_registry_values.
Qed.

(** A blocking aggregate result comes from an enforcing plugin of the list
    that returned a block with a violation; it is the last plugin that ran,
    and the violation is its own, stamped with its name. *)
Lemma cf_execute_block (h : string) (pls : list Plugin) (p : Payload)
    (res : PluginResult) (ran : list string) (v : PluginViolation) :
  cf_execute h pls p = (res, ran) ->
  continue_processing res = false -> violation res = Some v ->
  exists pl f q v0, pl ∈ pls /\ plugin_hook pl h = Some f /\
    continue_processing (f q) = false /\
    cfg_mode (plugin_config pl) = CF_ENFORCE /\
    violation (f q) = Some v0 /\ v = name_violation (plugin_name pl) v0 /\
    last ran = Some (plugin_name pl).
Proof.
  revert p res ran. induction pls as [|pl rest IH]; intros p res ran Hrun Hc Hv.
  - cbn in Hrun. injection Hrun as <- <-. discriminate.
  - cbn in Hrun. destruct (plugin_hook pl h) as [f|] eqn:Hf.
    + destruct (continue_processing (f p)) eqn:Hcp.
      * destruct (cf_execute h rest _) as [res' ran'] eqn:Hrec.
        injection Hrun as <- <-.
        destruct (IH _ _ _ Hrec Hc Hv) as (pl' & f' & q & v0 & Hin & ?&?&?&?&?& Hlast).
        exists pl', f', q, v0. repeat split; try done.
        -- apply elem_of_cons. by right.
        -- by apply last_cons_some.
      * destruct (cfg_mode (plugin_config pl)) eqn:Hmode.
        -- injection Hrun as <- <-. cbn in Hv.
           destruct (violation (f p)) as [v0|] eqn:Hv0; [|discriminate].
           injection Hv as <-. exists pl, f, p, v0.
           repeat split; try done. apply elem_of_cons. by left.
        -- destruct (cf_execute h rest p) as [res' ran'] eqn:Hrec.
           injection Hrun as <- <-.
           destruct (IH _ _ _ Hrec Hc Hv) as (pl' & f' & q & v0 & Hin & ?&?&?&?&?& Hlast).
           exists pl', f', q, v0. repeat split; try done.
           ++ apply elem_of_cons. by right.
           ++ by apply last_cons_some.
    + destruct (IH _ _ _ Hrun Hc Hv) as (pl' & f' & q & v0 & Hin & Hrest).
      exists pl', f', q, v0. split; [apply elem_of_cons; by right | exact Hrest].
Qed.

(** C2.  When the aggregate result of a dispatch blocks with a violation,
    [invoke_hook] raises a [PluginViolationError] whose code and reason are
    the violation's, whose [hook_type] is the dispatched point's name and
    whose [plugin_name] is the name of the registered enforcing handler that
    blocked (the last one that ran); its message embeds the point's name and
    the reason. *)
Theorem invoke_hook_violation_error (hook_type : HookType) (payload : Payload)
    (sid : option string) (rid : string) (st : State) (reg : gmap string Plugin)
    (res : PluginResult) (ran : list string) (v : PluginViolation) :
  _plugins_enabled st = true ->
  _plugin_manager st = Some reg ->
  has_hooks_for reg (hook_value hook_type) = true ->
  cf_invoke_hook reg (hook_value hook_type) (stamp_payload hook_type payload sid rid)
    = (res, ran) ->
  continue_processing res = false ->
  violation res = Some v ->
  exists e,
    invoke_hook hook_type payload sid rid st = (st, inl (ExcViolation e)) /\
    err_code e = v_code v /\ err_reason e = v_reason v /\
    err_hook_type e = hook_value hook_type /\
    (exists k pl f q v0,
       reg !! k = Some pl /\ cfg_mode (plugin_config pl) = CF_ENFORCE /\
       plugin_hook pl (hook_value hook_type) = Some f /\
       continue_processing (f q) = false /\ violation (f q) = Some v0 /\
       v_code v = v_code v0 /\ v_reason v = v_reason v0 /\
       err_plugin_name e = plugin_name pl /\ last ran = Some (plugin_name pl)) /\
    (exists detail, violation_message e
       = "Plugin blocked " +:+ hook_value hook_type +:+ ": " +:+ detail +:+ v_reason v).
Proof.
  intros He Hm Hh Hrun Hc Hv.
  exists (mkPluginViolationError (hook_value hook_type) (v_reason v) (v_code v)
                                 (default "" (v_plugin_name v))).
  split.
  - unfold invoke_hook. rewrite He, Hm, Hh. cbn [negb]. rewrite Hrun. cbn. rewrite Hc, Hv. reflexivity.
  - split; [done|]. split; [done|]. split; [done|]. split.
    + unfold cf_invoke_hook in Hrun.
      destruct (cf_execute_block _ _ _ _ _ _ Hrun Hc Hv)
        as (pl & f & q & v0 & Hin & Hf & Hcq & Hmode & Hv0 & -> & Hlast).
      destruct (in_hook_plugins _ _ _ Hin) as [k Hk].
      exists k, pl, f, q, v0. repeat split; done.
    + eexists. reflexivity.
Qed.

Definition auth_adapter : Plugin :=
  _FunctionHookAdapter auth_hook (hook_decorator "session_pre_init" ENFORCE 10) None.
Definition auth_registry : gmap string Plugin := <["auth_hook" := auth_adapter]> ∅.
Definition auth_violation : PluginViolation :=
  name_violation "auth_hook" (mkPluginViolation "Access denied" "Access denied" "AUTH_001" ∅ None).
Definition auth_result : PluginResult := mkPluginResult false None (Some auth_violation).

Lemma invoke_hook_violation_error_witness :
  exists e,
    invoke_hook SESSION_PRE_INIT empty_payload None "r1" after_register_auth
      = (after_register_auth, inl (ExcViolation e)) /\
    err_code e = "AUTH_001" /\ err_reason e = "Access denied" /\
    err_hook_type e = "session_pre_init" /\ err_plugin_name e = "auth_hook".
Proof.
  destruct (invoke_hook_violation_error SESSION_PRE_INIT empty_payload None "r1"
              after_register_auth auth_registry auth_result ["auth_hook"] auth_violation)
    as (e & Hrun & Hc & Hr & Hh & Hpl & _);
    [reflexivity | reflexivity | reflexivity | reflexivity | reflexivity | reflexivity |].
  exists e. split; [exact Hrun|]. split; [exact Hc|]. split; [exact Hr|].
  split; [exact Hh|].
  destruct Hpl as (k & pl & f & q & v0 & Hk & _ & _ & _ & _ & _ & _ & Hn & _).
  unfold auth_registry in Hk. apply lookup_insert_Some in Hk as [[_ <-] | [_ Hk]].
  - exact Hn.
  - by rewrite lookup_empty in Hk.
Defined.

(** ** The dispatch: permissive blocks *)

Definition has_method (h : string) (pl : Plugin) : Prop := is_Some (plugin_hook pl h).

Global Instance has_method_dec (h : string) (pl : Plugin) : Decision (has_method h pl).
Proof. unfold has_method. destruct (plugin_hook pl h); [left; by eexists | right; by intros []]. Defined.

(** When no enforcing handler blocks in the calls a run of [cf_execute]
    makes, every plugin with a method for the hook runs, in order, and
    the aggregate result continues. *)
Lemma cf_execute_no_enforcing_block_run (h : string) (pls : list Plugin) (p : Payload) :
  enforcing_blocks h (cf_calls h pls p) = [] ->
  continue_processing (fst (cf_execute h pls p)) = true /\
  snd (cf_execute h pls p) = map plugin_name (filter (has_method h) pls).
Proof.
  revert p. induction pls as [|pl rest IH]; intros p Hnb; [done|].
  rewrite filter_cons. cbn in Hnb |- *. destruct (plugin_hook pl h) as [f|] eqn:Hf.
  - rewrite decide_True by (unfold has_method; rewrite Hf; by eexists).
    unfold enforcing_blocks in Hnb. cbn [omap list_omap] in Hnb.
    destruct (continue_processing (f p)) eqn:Hcp;
      destruct (cfg_mode (plugin_config pl)) eqn:Hmode; cbn in Hnb;
      rewrite ?Hf, ?Hcp in Hnb; cbn in Hnb; try discriminate.
    + destruct (cf_execute h rest _) as [res' ran'] eqn:Hrec.
      destruct (IH _ Hnb) as [H1 H2]. rewrite Hrec in H1, H2. cbn in *. by rewrite H1, H2.
    + destruct (cf_execute h rest _) as [res' ran'] eqn:Hrec.
      destruct (IH _ Hnb) as [H1 H2]. rewrite Hrec in H1, H2. cbn in *. by rewrite H1, H2.
    + destruct (cf_execute h rest p) as [res' ran'] eqn:Hrec.
      destruct (IH p Hnb) as [H1 H2]. rewrite Hrec in H1, H2. cbn in *.
        by rewrite H1, H2.
  - rewrite decide_False by (unfold has_method; rewrite Hf; by intros []).
    by apply IH.
Qed.

(** C7.  In a dispatch where no enforcing handler blocks (permissive ones
    may): every subscribed handler runs in priority order, the aggregate
    result continues, and [invoke_hook] returns normally with a continuing
    result (or none), so the permissive blocks never surface as exceptions.
    "No enforcing handler blocks" is said of this dispatch: of the calls the
    run makes on the stamped payload, none is an enforcing handler that
    blocks; a handler may block on other payloads. *)
Theorem permissive_blocks_do_not_raise (hook_type : HookType) (payload : Payload)
    (sid : option string) (rid : string) (st : State) (reg : gmap string Plugin) :
  _plugins_enabled st = true ->
  _plugin_manager st = Some reg ->
  enforcing_blocks (hook_value hook_type)
    (cf_calls (hook_value hook_type) (hook_plugins reg (hook_value hook_type))
       (stamp_payload hook_type payload sid rid)) = [] ->
  continue_processing
    (fst (cf_invoke_hook reg (hook_value hook_type)
            (stamp_payload hook_type payload sid rid))) = true /\
  snd (cf_invoke_hook reg (hook_value hook_type) (stamp_payload hook_type payload sid rid))
  = map plugin_name (filter (has_method (hook_value hook_type))
                            (hook_plugins reg (hook_value hook_type))) /\
  exists out, invoke_hook hook_type payload sid rid st = (st, inr out) /\
    (forall res, fst out = Some res -> continue_processing res = true).
Proof.
  intros He Hm Hnb.
  destruct (cf_execute_no_enforcing_block_run _ _ _ Hnb) as [Hc Hran].
  unfold cf_invoke_hook. split; [exact Hc|]. split; [exact Hran|].
  unfold invoke_hook. rewrite He, Hm. cbn [negb].
  destruct (has_hooks_for reg (hook_value hook_type)); cbn [negb].
  - unfold cf_invoke_hook.
    destruct (cf_execute (hook_value hook_type) (hook_plugins reg (hook_value hook_type))
                (stamp_payload hook_type payload sid rid)) as [res ran].
    cbn in Hc. rewrite Hc.
    eexists. split; [reflexivity|]. intros r Hr. cbn in Hr. by injection Hr as <-.
  - eexists. split; [reflexivity|]. intros r Hr. discriminate.
Qed.

(** An enforcing guard at priority 10 that blocks only requests whose id is
    ["blocked"], behind the permissive blocker at priority 5. *)
Definition request_guard : HookFn :=
  mkHookFn "request_guard" "test_execution_modes"
    (Some (hook_decorator "session_pre_init" ENFORCE 10))
    (fun p => if String.eqb (request_id p) "blocked"
              then Some (block "Request blocked" "REQ_001" "" None) else None).

Definition after_register_guard : State :=
  fst (register [IFn permissive_blocker; IFn request_guard] None init_state).

Definition guard_registry : gmap string Plugin :=
  default ∅ (_plugin_manager after_register_guard).

Lemma permissive_blocks_do_not_raise_witness :
  snd (cf_invoke_hook guard_registry "session_pre_init"
         (stamp_payload SESSION_PRE_INIT empty_payload None "r"))
  = ["permissive_block"; "request_guard"] /\
  (exists out, invoke_hook SESSION_PRE_INIT empty_payload None "r" after_register_guard
               = (after_register_guard, inr out) /\
     (forall res, fst out = Some res -> continue_processing res = true)) /\
  (exists e, snd (invoke_hook SESSION_PRE_INIT empty_payload None "blocked"
                    after_register_guard) = inl e).
Proof.
  destruct (permissive_blocks_do_not_raise SESSION_PRE_INIT empty_payload None "r"
              after_register_guard guard_registry) as (_ & Hran & Hout).
  - vm_compute. reflexivity.
  - vm_compute. reflexivity.
  - vm_compute. reflexivity.
  - split; [|split; [exact Hout|]].
    + cbn [hook_value] in Hran. rewrite Hran. vm_compute. reflexivity.
    + vm_compute. eexists. reflexivity.
Defined.

(** ** Scopes: the tracking invariant and [deregister_session_plugins] *)

(** The registry the manager holds ([∅] when there is none). *)
Definition registry_of (st : State) : gmap string Plugin :=
  default ∅ (_plugin_manager st).

(** The invariant the module state keeps: without a manager nothing is
    tracked; with one, plugins are enabled, every tracked name is registered,
    and two scopes never track the same name. *)
Definition wf (st : State) : Prop :=
  match _plugin_manager st with
  | None => _session_tags st = ∅
  | Some reg =>
      _plugins_enabled st = true /\
      (forall s ns n, _session_tags st !! s = Some ns -> n ∈ ns -> is_Some (reg !! n)) /\
      (forall s t ns nt, s <> t -> _session_tags st !! s = Some ns ->
         _session_tags st !! t = Some nt -> ns ## nt)
  end.

Lemma set_manager_same (st : State) (reg : gmap string Plugin) :
  _plugin_manager st = Some reg -> set_manager st (Some reg) = st.
Proof. destruct st; cbn. by intros ->. Qed.

Lemma set_manager_twice (st : State) (m1 m2 : option (gmap string Plugin)) :
  set_manager (set_manager st m1) m2 = set_manager st m2.
Proof. by destruct st. Qed.

Lemma for_unregister (l : list string) (st : State) (reg : gmap string Plugin) :
  _plugin_manager st = Some reg ->
  exists reg', for_ l unregister_quiet st = (set_manager st (Some reg'), inr tt) /\
    forall n, reg' !! n = if decide (n ∈ l) then None else reg !! n.
Proof.
  revert st reg. induction l as [|x l IH]; intros st reg Hm.
  - exists reg. cbn. rewrite set_manager_same by done. split; [done|].
    intros n. rewrite decide_False; [done | apply not_elem_of_nil].
  - cbn. unfold bind, unregister_quiet at 1. rewrite Hm.
    unfold registry_unregister. destruct (reg !! x) as [px|] eqn:Hx.
    + destruct (IH (set_manager st (Some (delete x reg))) (delete x reg))
        as [reg' [Hrun Hlook]]; [done|].
      exists reg'. rewrite Hrun, set_manager_twice. split; [done|].
      intros n. rewrite Hlook. destruct (decide (n = x)) as [->|Hne].
      * rewrite lookup_delete_eq.
        destruct (decide (x ∈ l)), (decide (x ∈ x :: l)); try done; set_solver.
      * rewrite lookup_delete_ne by congruence.
        destruct (decide (n ∈ l)), (decide (n ∈ x :: l)); try done; set_solver.
    + destruct (IH st reg Hm) as [reg' [Hrun Hlook]].
      exists reg'. split; [done|]. intros n. rewrite Hlook.
      destruct (decide (n = x)) as [->|Hne].
      * destruct (decide (x ∈ l)), (decide (x ∈ x :: l)); try done; set_solver.
      * destruct (decide (n ∈ l)), (decide (n ∈ x :: l)); try done; set_solver.
Qed.

Lemma deregister_effect (s : string) (st : State) :
  wf st ->
  exists st', deregister_session_plugins s st = (st', inr tt) /\
    _session_tags st' = delete s (_session_tags st) /\
    (forall n, registry_of st' !! n =
       if decide (n ∈ default ∅ (_session_tags st !! s)) then None
       else registry_of st !! n) /\
    (forall reg, _plugin_manager st = Some reg ->
       exists reg', _plugin_manager st' = Some reg') /\
    (_plugin_manager st = None -> _plugin_manager st' = None) /\
    _plugins_enabled st' = _plugins_enabled st /\
    _scope_ids st' = _scope_ids st /\ uuid_next st' = uuid_next st.
Proof.
  unfold wf. intros Hwf. unfold deregister_session_plugins.
  destruct (_plugin_manager st) as [reg|] eqn:Hm.
  - destruct Hwf as [He _]. rewrite He. cbn [negb].
    destruct (for_unregister (elements (default ∅ (_session_tags st !! s)))
                (set_tags st (delete s (_session_tags st))) reg) as [reg' [Hrun Hlook]];
      [by destruct st|].
    rewrite Hrun. eexists. split; [reflexivity|].
    split; [by destruct st|]. split.
    + intros n. unfold registry_of. rewrite Hm. destruct st; cbn. rewrite Hlook.
      destruct (decide (n ∈ elements _)), (decide (n ∈ default ∅ _)); try done;
        exfalso; set_solver.
    + split; [intros; eexists; by destruct st|]. split; [congruence|].
      destruct st; cbn; done.
  - rewrite Hwf. destruct (_plugins_enabled st) eqn:He; cbn [negb];
      (eexists; split; [reflexivity|]);
      (split; [by rewrite delete_empty|]);
      (split; [intros n; unfold registry_of; rewrite Hm;
               case_decide; by rewrite ?lookup_empty|]);
      (split; [intros reg H; discriminate|]); repeat split; intros; congruence.
Qed.

Lemma wf_deregister (s : string) (st : State) :
  wf st -> wf (fst (deregister_session_plugins s st)).
Proof.
  intros Hwf. destruct (deregister_effect s st Hwf)
    as (st' & Hrun & Htags & Hlook & Hsome & Hnone & Hen & _ & _).
  rewrite Hrun. cbn. unfold wf in *.
  destruct (_plugin_manager st) as [reg|] eqn:Hm.
  - destruct (Hsome reg eq_refl) as [reg' Hm']. rewrite Hm'.
    destruct Hwf as (He & Htrk & Hdis). rewrite Hen, Htags.
    split; [done|]. split.
    + intros t nt n Ht Hn. apply lookup_delete_Some in Ht as [Hts Ht].
      specialize (Hlook n). unfold registry_of in Hlook. rewrite Hm, Hm' in Hlook.
      cbn in Hlook. rewrite Hlook.
      destruct (decide (n ∈ default ∅ (_session_tags st !! s))) as [Hin|Hout].
      * exfalso. destruct (_session_tags st !! s) as [ns|] eqn:Hs; cbn in Hin.
        -- by apply (Hdis s t ns nt ltac:(congruence) Hs Ht n).
        -- set_solver.
      * by apply (Htrk t nt n).
    + intros t u nt nu Htu Ht Hu.
      apply lookup_delete_Some in Ht as [_ Ht]. apply lookup_delete_Some in Hu as [_ Hu].
      by apply (Hdis t u).
  - rewrite (Hnone eq_refl), Htags, Hwf. apply delete_empty.
Qed.


(* ------------------------------------------------------------------ *)
(** ** Scopes: the invariant across registration and the context managers *)

(** The adapter [_register_single] builds for a flattened pair, if any. *)
Definition pair_adapter (x : Item * option Z) : option Plugin :=
  match x with
  | (IFn fn, p) => option_map (fun meta => _FunctionHookAdapter fn meta p) (fn_hook_meta fn)
  | (IInstance inst, p) =>
      option_map (fun pm => _ClassPluginAdapter inst pm p) (inst_plugin_meta inst)
  | (IMelleaPlugin pl, _) => Some pl
  | _ => None
  end.

(** One successful branch of [_register_single]: register, then track. *)
Definition reg1 (sid : option string) (pl : Plugin) : M unit :=
  pm_register pl >>> track_if sid (plugin_name pl).

Definition register_pair (sid : option string) : Item * option Z -> M unit :=
  fun '(i, p) => _register_single i sid p.

Lemma register_single_eq (i : Item) (sid : option string) (p : option Z) :
  _register_single i sid p =
  match pair_adapter (i, p) with
  | Some pl => reg1 sid pl
  | None => raise cannot_register
  end.
Proof.
  destruct i as [fn|inst|pl|ps|o]; cbn; try done.
  - by destruct (fn_hook_meta fn).
  - by destruct (inst_plugin_meta inst).
Qed.

Lemma bind_ret_unit (m : M unit) (st : State) : bind m (fun _ => ret tt) st = m st.
Proof. unfold bind. by destruct (m st) as [st' [e|[]]]. Qed.

Lemma register_set_eq (ps : PluginSet) (sid : option string) (st : State) :
  register [ISet ps] sid st = bind _ensure_plugin_manager
    (fun _ => for_ (flatten ps) (register_pair sid)) st.
Proof.
  unfold register. cbn [for_]. unfold bind at 1 3.
  destruct (_ensure_plugin_manager st) as [st1 [e|[]]]; [done|].
  apply bind_ret_unit.
Qed.

Lemma register_instance_eq (inst : PluginInstance) (sid : option string) (st : State) :
  register [IInstance inst] sid st = bind _ensure_plugin_manager
    (fun _ => for_ [(IInstance inst, None)] (register_pair sid)) st.
Proof.
  unfold register. cbn [for_]. unfold bind at 1 3.
  destruct (_ensure_plugin_manager st) as [st1 [e|[]]]; [done|].
  rewrite bind_ret_unit. cbn [for_]. by rewrite bind_ret_unit.
Qed.

Section Preservation.
Variable P : State -> Prop.

Lemma P_bind {A B} (m : M A) (k : A -> M B) (st : State) :
  (forall st, P st -> P (fst (m st))) ->
  (forall a st, P st -> P (fst (k a st))) ->
  P st -> P (fst (bind m k st)).
Proof.
  intros Hm Hk Hst. specialize (Hm st Hst). unfold bind.
  destruct (m st) as [st1 [e|a]]; cbn in *; auto.
Qed.

Lemma P_for {A} (l : list A) (f : A -> M unit) (st : State) :
  (forall x st, P st -> P (fst (f x st))) ->
  P st -> P (fst (for_ l f st)).
Proof.
  intros Hf. revert st. induction l as [|x l IH]; intros st Hst; [done|].
  cbn [for_]. apply P_bind; auto.
Qed.
End Preservation.

Lemma wf_untracked (st : State) (reg : gmap string Plugin) (n : string) :
  wf st -> _plugin_manager st = Some reg -> reg !! n = None ->
  forall t nt, _session_tags st !! t = Some nt -> n ∉ nt.
Proof.
  unfold wf. intros Hwf Hm Hn t nt Ht Hin. rewrite Hm in Hwf.
  destruct Hwf as (_ & Htrk & _). destruct (Htrk t nt n Ht Hin). congruence.
Qed.

Lemma wf_insert (st : State) (reg : gmap string Plugin) (n : string) (pl : Plugin) :
  wf st -> _plugin_manager st = Some reg ->
  wf (set_manager st (Some (<[n := pl]> reg))).
Proof.
  unfold wf. intros Hwf Hm. rewrite Hm in Hwf. destruct Hwf as (He & Htrk & Hdis).
  destruct st; cbn in *. split; [done|]. split; [|done].
  intros t nt x Ht Hx. destruct (decide (n = x)) as [->|Hne].
  - rewrite lookup_insert_eq. by eexists.
  - rewrite lookup_insert_ne by done. by apply (Htrk t nt x).
Qed.

Lemma wf_track (st : State) (reg : gmap string Plugin) (u n : string) :
  wf st -> _plugin_manager st = Some reg -> is_Some (reg !! n) ->
  (forall t nt, _session_tags st !! t = Some nt -> n ∉ nt) ->
  wf (set_tags st (<[u := {[n]} ∪ default ∅ (_session_tags st !! u)]> (_session_tags st))).
Proof.
  unfold wf. intros Hwf Hm Hn Hfree. rewrite Hm in Hwf.
  destruct Hwf as (He & Htrk & Hdis). destruct st as [m en tags sc un]; cbn in *.
  subst m. split; [done|]. split.
  - intros t nt x Ht Hx. apply lookup_insert_Some in Ht as [[<- <-]|[Htu Ht]].
    + apply elem_of_union in Hx as [Hx|Hx].
      * apply elem_of_singleton in Hx. by subst x.
      * destruct (tags !! u) as [nu|] eqn:Hu; cbn in Hx; [|set_solver].
        by apply (Htrk u nu x).
    + by apply (Htrk t nt x).
  - intros s t ns nt Hst Hs Ht.
    apply lookup_insert_Some in Hs as [[Hus Hns]|[Hsu Hs]];
      apply lookup_insert_Some in Ht as [[Hut Hnt]|[Htu Ht]]; try congruence.
    + subst s ns. pose proof (Hfree t nt Ht).
      destruct (tags !! u) as [nu|] eqn:Hu; cbn; [|set_solver].
      pose proof (Hdis u t nu nt Hst Hu Ht). set_solver.
    + subst t nt. pose proof (Hfree s ns Hs).
      destruct (tags !! u) as [nu|] eqn:Hu; cbn; [|set_solver].
      pose proof (Hdis s u ns nu Hst Hs Hu). set_solver.
    + by apply (Hdis s t).
Qed.

Lemma wf_reg1 (sid : option string) (pl : Plugin) (st : State) :
  wf st -> wf (fst (reg1 sid pl st)).
Proof.
  intros Hwf. unfold reg1, bind, pm_register.
  destruct (_plugin_manager st) as [reg|] eqn:Hm; [|done].
  unfold registry_register. destruct (reg !! plugin_name pl) as [p0|] eqn:Hn; [done|].
  pose proof (wf_insert st reg (plugin_name pl) pl Hwf Hm) as Hwf1.
  unfold track_if. destruct sid as [u|]; [|done].
  destruct (truthy (Some u)); [|done]. unfold _track_session_plugin, modify. cbn [fst].
  apply (wf_track (set_manager st (Some (<[plugin_name pl := pl]> reg)))
           (<[plugin_name pl := pl]> reg)); try done.
  - rewrite lookup_insert_eq. by eexists.
  - intros t nt. apply (wf_untracked st reg); try done.
Qed.

Lemma wf_register_pair (sid : option string) (x : Item * option Z) (st : State) :
  wf st -> wf (fst (register_pair sid x st)).
Proof.
  destruct x as [i p]. unfold register_pair. rewrite register_single_eq.
  destruct (pair_adapter (i, p)); [apply wf_reg1 | done].
Qed.

Lemma wf_ensure (st : State) : wf st -> wf (fst (_ensure_plugin_manager st)).
Proof.
  unfold _ensure_plugin_manager. intros Hwf.
  destruct (_plugin_manager st) eqn:Hm; [done|]. unfold wf in *.
  destruct st; cbn in *.
  rewrite Hm in Hwf. rewrite Hwf. split; [done|]. split; intros *; by rewrite lookup_empty.
Qed.

Lemma wf_register_pairs (sid : option string) (l : list (Item * option Z)) (st : State) :
  wf st -> wf (fst ((_ensure_plugin_manager >>> for_ l (register_pair sid)) st)).
Proof.
  intros Hwf. apply P_bind; [apply wf_ensure| |done].
  intros _ st1 Hst1. apply P_for; [|done]. intros x st2. apply wf_register_pair.
Qed.

Lemma wf_scope_fields (st : State) (n : N) (s : gmap nat string) :
  wf (set_scope_ids (set_uuid_next st n) s) <-> wf st.
Proof. by destruct st. Qed.

Lemma wf_plugin_set_enter (ps : PluginSet) (st : State) :
  wf st -> wf (fst (PluginSet__enter__ ps st)).
Proof.
  intros Hwf. unfold PluginSet__enter__. destruct (_scope_ids st !! ps_oid ps); [done|].
  rewrite register_set_eq. apply wf_register_pairs. by apply wf_scope_fields.
Qed.

Lemma wf_plugin_set_exit (ps : PluginSet) (st : State) :
  wf st -> wf (fst (PluginSet__exit__ ps st)).
Proof.
  intros Hwf. unfold PluginSet__exit__. destruct (_scope_ids st !! ps_oid ps); [|done].
  apply P_bind; [intros; by apply wf_deregister| |done].
  intros _ st1 Hst1. cbn. destruct st1; exact Hst1.
Qed.

Lemma wf_cm_enter (inst : PluginInstance) (st : State) :
  wf st -> wf (fst (_plugin_cm_enter inst st)).
Proof.
  intros Hwf. unfold _plugin_cm_enter. destruct (_scope_ids st !! inst_oid inst); [done|].
  rewrite register_instance_eq. apply wf_register_pairs. by apply wf_scope_fields.
Qed.

Lemma wf_cm_exit (inst : PluginInstance) (st : State) :
  wf st -> wf (fst (_plugin_cm_exit inst st)).
Proof.
  intros Hwf. unfold _plugin_cm_exit. destruct (_scope_ids st !! inst_oid inst); [|done].
  apply P_bind; [intros; by apply wf_deregister| |done].
  intros _ st1 Hst1. cbn. destruct st1; exact Hst1.
Qed.

Lemma wf_init : wf init_state.
Proof. done. Qed.

(* ------------------------------------------------------------------ *)
(** ** Scopes: re-entry of the context managers *)

(** The shape shared by [PluginSet.__enter__] and [_plugin_cm_enter]: the
    object [oid] opens a scope and registers the flattened [pairs]. *)
Definition scope_enter (oid : nat) (pairs : list (Item * option Z)) (msg : string)
  : M unit :=
  fun st =>
    match _scope_ids st !! oid with
    | Some _ => (st, inl (RuntimeError msg))
    | None =>
        let scope := uuid4_str (uuid_next st) in
        let st1 := set_scope_ids (set_uuid_next st (N.succ (uuid_next st)))
                                 (<[oid := scope]> (_scope_ids st)) in
        (_ensure_plugin_manager >>> for_ pairs (register_pair (Some scope))) st1
    end.

(** The shape shared by [PluginSet.__exit__] and [_plugin_cm_exit]. *)
Definition scope_exit (oid : nat) : M unit :=
  fun st =>
    match _scope_ids st !! oid with
    | Some scope =>
        (deregister_session_plugins scope >>>
         modify (fun st' => set_scope_ids st' (delete oid (_scope_ids st')))) st
    | None => (st, inr tt)
    end.

Definition set_active_msg : string := "PluginSet is already active as a context manager.".
Definition cm_active_msg : string := "Plugin is already active as a context manager.".

Lemma plugin_set_enter_eq (ps : PluginSet) (st : State) :
  PluginSet__enter__ ps st = scope_enter (ps_oid ps) (flatten ps) set_active_msg st.
Proof.
  unfold PluginSet__enter__, scope_enter. destruct (_scope_ids st !! ps_oid ps); [done|].
  apply register_set_eq.
Qed.

Lemma plugin_set_exit_eq (ps : PluginSet) (st : State) :
  PluginSet__exit__ ps st = scope_exit (ps_oid ps) st.
Proof. reflexivity. Qed.

Lemma cm_enter_eq (inst : PluginInstance) (st : State) :
  _plugin_cm_enter inst st = scope_enter (inst_oid inst) [(IInstance inst, None)] cm_active_msg st.
Proof.
  unfold _plugin_cm_enter, scope_enter. destruct (_scope_ids st !! inst_oid inst); [done|].
  apply register_instance_eq.
Qed.

Lemma cm_exit_eq (inst : PluginInstance) (st : State) :
  _plugin_cm_exit inst st = scope_exit (inst_oid inst) st.
Proof. reflexivity. Qed.

Lemma truthy_uuid (n : N) : truthy (Some (uuid4_str n)) = true.
Proof. reflexivity. Qed.

Lemma uuid4_str_succ (n : N) : uuid4_str (N.succ n) <> uuid4_str n.
Proof.
  unfold uuid4_str. intros H. apply (inj (String.append "uuid-")) in H.
  apply (inj pretty) in H. lia.
Qed.

Lemma for_pairs_sound (sid : option string) (l : list (Item * option Z)) (st st' : State) :
  for_ l (register_pair sid) st = (st', inr tt) ->
  exists pls, Forall2 (fun x pl => pair_adapter x = Some pl) l pls /\
    for_ pls (reg1 sid) st = (st', inr tt).
Proof.
  revert st. induction l as [|[i p] l IH]; intros st H.
  - exists []. split; [constructor | done].
  - cbn [for_] in H. unfold bind at 1 in H.
    change (register_pair sid (i, p)) with (_register_single i sid p) in H.
    rewrite register_single_eq in H.
    destruct (pair_adapter (i, p)) as [pl|] eqn:Ha; [|discriminate].
    destruct (reg1 sid pl st) as [st1 [e|[]]] eqn:E; [discriminate|].
    destruct (IH st1 H) as [pls [HF Hrun]]. exists (pl :: pls).
    split; [by constructor|]. cbn [for_]. unfold bind at 1. by rewrite E.
Qed.

Lemma for_pairs_complete (sid : option string) (l : list (Item * option Z))
    (pls : list Plugin) (st : State) :
  Forall2 (fun x pl => pair_adapter x = Some pl) l pls ->
  for_ l (register_pair sid) st = for_ pls (reg1 sid) st.
Proof.
  intros HF. revert st. induction HF as [|[i p] pl l pls Ha HF IH]; intros st; [done|].
  cbn [for_]. unfold bind at 1 2.
  change (register_pair sid (i, p)) with (_register_single i sid p).
  rewrite register_single_eq, Ha.
  destruct (reg1 sid pl st) as [st1 [e|[]]]; [done|]. apply IH.
Qed.

Lemma Forall2_adapter_in (l : list (Item * option Z)) (pls : list Plugin) x pl :
  Forall2 (fun x pl => pair_adapter x = Some pl) l pls ->
  x ∈ l -> pair_adapter x = Some pl -> pl ∈ pls.
Proof.
  intros HF. induction HF as [|y q l pls Hy HF IH]; intros Hx Ha.
  - by apply not_elem_of_nil in Hx.
  - apply elem_of_cons in Hx as [->|Hx].
    + rewrite Ha in Hy. injection Hy as ->. apply elem_of_cons. by left.
    + apply elem_of_cons. right. by apply IH.
Qed.

Lemma reg1_fresh (u : string) (pl : Plugin) (st : State) (reg : gmap string Plugin) :
  truthy (Some u) = true -> _plugin_manager st = Some reg ->
  reg !! plugin_name pl = None ->
  reg1 (Some u) pl st =
  (set_tags (set_manager st (Some (<[plugin_name pl := pl]> reg)))
     (<[u := {[plugin_name pl]} ∪ default ∅ (_session_tags st !! u)]> (_session_tags st)),
   inr tt).
Proof.
  intros Hu Hm Hn. unfold reg1, bind, pm_register. rewrite Hm.
  unfold registry_register. rewrite Hn. unfold track_if. rewrite Hu. by destruct st.
Qed.

Lemma reg1_taken (sid : option string) (pl : Plugin) (st : State)
    (reg : gmap string Plugin) (p0 : Plugin) :
  _plugin_manager st = Some reg -> reg !! plugin_name pl = Some p0 ->
  exists e, reg1 sid pl st = (st, inl e).
Proof.
  intros Hm Hn. unfold reg1, bind, pm_register. rewrite Hm.
  unfold registry_register. rewrite Hn. by eexists.
Qed.

Lemma for_reg1_sound (u : string) (pls : list Plugin) (st st' : State)
    (reg : gmap string Plugin) :
  truthy (Some u) = true -> _plugin_manager st = Some reg ->
  for_ pls (reg1 (Some u)) st = (st', inr tt) ->
  NoDup (map plugin_name pls) /\
  (forall pl, pl ∈ pls -> reg !! plugin_name pl = None) /\
  (forall pl, pl ∈ pls -> registry_of st' !! plugin_name pl = Some pl /\
                          plugin_name pl ∈ default ∅ (_session_tags st' !! u)) /\
  (forall n p, reg !! n = Some p -> registry_of st' !! n = Some p) /\
  (forall n, n ∈ default ∅ (_session_tags st !! u) ->
             n ∈ default ∅ (_session_tags st' !! u)) /\
  (exists reg', _plugin_manager st' = Some reg') /\
  _plugins_enabled st' = _plugins_enabled st /\
  _scope_ids st' = _scope_ids st /\ uuid_next st' = uuid_next st.
Proof.
  intros Hu. revert st reg. induction pls as [|pl pls IH]; intros st reg Hm Hrun.
  - cbn in Hrun. injection Hrun as <-. split; [constructor|].
    split; [set_solver|]. split; [set_solver|].
    split; [intros n p Hp; unfold registry_of; by rewrite Hm|].
    split; [done|]. split; [by eexists|]. done.
  - cbn [for_] in Hrun. unfold bind at 1 in Hrun.
    destruct (reg !! plugin_name pl) as [p0|] eqn:Hn.
    { destruct (reg1_taken (Some u) pl st reg p0 Hm Hn) as [e He].
      rewrite He in Hrun. discriminate. }
    rewrite (reg1_fresh u pl st reg Hu Hm Hn) in Hrun.
    set (st1 := set_tags _ _) in Hrun.
    destruct (IH st1 (<[plugin_name pl := pl]> reg) ltac:(by destruct st) Hrun)
      as (Hnd & Hfr & Hreg & Hmono & Htmono & Hman & Hen & Hsc & Hun).
    assert (Hne : forall q, q ∈ pls -> plugin_name q <> plugin_name pl /\
                                      reg !! plugin_name q = None).
    { intros q Hq. apply Hfr, lookup_insert_None in Hq as [? ?]. done. }
    split.
    { cbn [map]. apply NoDup_cons. split; [|done].
      intros Hin. apply list_elem_of_fmap in Hin as [q [Hq Hin]].
      by destruct (Hne q Hin) as [Hqn _]. }
    split.
    { intros q Hq. apply elem_of_cons in Hq as [->|Hq]; [done|]. by apply Hne. }
    split.
    { intros q Hq. apply elem_of_cons in Hq as [->|Hq]; [|by apply Hreg].
      split.
      - apply Hmono. apply lookup_insert_eq.
      - apply Htmono. subst st1. destruct st; cbn. rewrite lookup_insert_eq. cbn.
        set_solver. }
    split.
    { intros n p Hp. apply Hmono. rewrite lookup_insert_ne; [done|].
      intros <-. congruence. }
    split.
    { intros n Hin. apply Htmono. subst st1. destruct st; cbn in *.
      rewrite lookup_insert_eq. cbn. set_solver. }
    split; [done|]. subst st1. destruct st; cbn in *. done.
Qed.

Lemma for_reg1_complete (u : string) (pls : list Plugin) (st : State)
    (reg : gmap string Plugin) :
  truthy (Some u) = true -> _plugin_manager st = Some reg ->
  NoDup (map plugin_name pls) ->
  (forall pl, pl ∈ pls -> reg !! plugin_name pl = None) ->
  exists st', for_ pls (reg1 (Some u)) st = (st', inr tt).
Proof.
  intros Hu. revert st reg. induction pls as [|pl pls IH]; intros st reg Hm Hnd Hfr.
  - by eexists.
  - cbn [for_]. unfold bind at 1.
    assert (Hn : reg !! plugin_name pl = None) by (apply Hfr; apply elem_of_cons; by left).
    rewrite (reg1_fresh u pl st reg Hu Hm Hn).
    cbn [map] in Hnd. apply NoDup_cons in Hnd as [Hnot Hnd].
    apply (IH _ (<[plugin_name pl := pl]> reg)); [by destruct st | done |].
    intros q Hq. rewrite lookup_insert_ne.
    + apply Hfr. apply elem_of_cons. by right.
    + intros Heq. apply Hnot. apply list_elem_of_fmap. by exists q.
Qed.

Lemma ensure_enabled (st : State) :
  (_plugin_manager st = None \/ _plugins_enabled st = true) ->
  exists reg, _ensure_plugin_manager st =
    (set_enabled (set_manager st (Some reg)) true, inr tt) /\
    (_plugin_manager st = Some reg \/ (_plugin_manager st = None /\ reg = ∅)).
Proof.
  intros Hen. unfold _ensure_plugin_manager.
  destruct (_plugin_manager st) as [reg|] eqn:Hm.
  - exists reg. destruct Hen as [?|He]; [congruence|].
    split; [|by left]. destruct st; cbn in *. by subst.
  - exists ∅. split; [done | by right].
Qed.

Ltac simpl_state :=
  cbn [_plugin_manager _plugins_enabled _session_tags _scope_ids uuid_next
       set_manager set_enabled set_tags set_scope_ids set_uuid_next] in *.

Lemma scope_reentry (oid : nat) (pairs : list (Item * option Z)) (msg : string)
    (st st1 : State) :
  (_plugin_manager st = None \/ _plugins_enabled st = true) ->
  scope_enter oid pairs msg st = (st1, inr tt) ->
  exists u1, _scope_ids st1 !! oid = Some u1 /\
  (forall x pl, x ∈ pairs -> pair_adapter x = Some pl ->
     registry_of st1 !! plugin_name pl = Some pl /\
     plugin_name pl ∈ default ∅ (_session_tags st1 !! u1)) /\
  exists st2, scope_exit oid st1 = (st2, inr tt) /\
  _scope_ids st2 !! oid = None /\ _session_tags st2 !! u1 = None /\
  (forall x pl, x ∈ pairs -> pair_adapter x = Some pl ->
     registry_of st2 !! plugin_name pl = None) /\
  scope_exit oid st2 = (st2, inr tt) /\
  exists st3 u3, scope_enter oid pairs msg st2 = (st3, inr tt) /\
  _scope_ids st3 !! oid = Some u3 /\ u3 <> u1 /\
  (forall x pl, x ∈ pairs -> pair_adapter x = Some pl ->
     registry_of st3 !! plugin_name pl = Some pl /\
     plugin_name pl ∈ default ∅ (_session_tags st3 !! u3)).
Proof.
  intros Hen Hrun. unfold scope_enter in Hrun.
  destruct (_scope_ids st !! oid) as [?|] eqn:Hs0; [discriminate|].
  cbv zeta in Hrun.
  set (u1 := uuid4_str (uuid_next st)) in Hrun.
  set (st0 := set_scope_ids _ _) in Hrun.
  destruct (ensure_enabled st0 ltac:(subst st0; destruct st; simpl_state; exact Hen))
    as [rege [Hens _]].
  unfold bind at 1 in Hrun. rewrite Hens in Hrun.
  destruct (for_pairs_sound _ _ _ _ Hrun) as [pls [HF Hpls]].
  destruct (for_reg1_sound u1 pls (set_enabled (set_manager st0 (Some rege)) true) st1 rege (truthy_uuid _) eq_refl Hpls)
    as (Hnd & Hfr & Hreg & _ & _ & [reg1 Hm1] & Hen1 & Hsc1 & Hun1).
  simpl_state. subst st0. simpl_state.
  assert (Hs1 : _scope_ids st1 !! oid = Some u1)
    by (rewrite Hsc1; apply lookup_insert_eq).
  exists u1. split; [done|]. split.
  { intros x pl Hx Ha. apply Hreg. by apply (Forall2_adapter_in pairs pls x pl). }
  (* the exit *)
  unfold scope_exit at 1. rewrite Hs1. unfold bind at 1.
  unfold deregister_session_plugins at 1. rewrite Hen1, Hm1. cbn [negb].
  destruct (for_unregister (elements (default ∅ (_session_tags st1 !! u1)))
              (set_tags st1 (delete u1 (_session_tags st1))) reg1
              ltac:(by destruct st1)) as [reg2 [Hdr Hlk]].
  rewrite Hdr.
  set (st2 := set_scope_ids (set_manager (set_tags st1 (delete u1 (_session_tags st1)))
                                         (Some reg2))
                            (delete oid (_scope_ids st1))).
  exists st2. split; [reflexivity|].
  assert (Hs2 : _scope_ids st2 !! oid = None)
    by (subst st2; simpl_state; apply lookup_delete_eq).
  assert (Hgone : forall pl, pl ∈ pls -> reg2 !! plugin_name pl = None).
  { intros pl Hpl. rewrite Hlk. rewrite decide_True; [done|].
    apply elem_of_elements. by apply Hreg. }
  split; [done|]. split.
  { subst st2. simpl_state. apply lookup_delete_eq. }
  split.
  { intros x pl Hx Ha. apply Hgone. by apply (Forall2_adapter_in pairs pls x pl). }
  split.
  { unfold scope_exit. by rewrite Hs2. }
  (* the second entry *)
  unfold scope_enter. rewrite Hs2. cbv zeta.
  set (u3 := uuid4_str (uuid_next st2)).
  set (st0 := set_scope_ids (set_uuid_next st2 (N.succ (uuid_next st2)))
                            (<[oid := u3]> (_scope_ids st2))).
  assert (Hens' : _ensure_plugin_manager st0 = (st0, inr tt)) by reflexivity.
  destruct (for_reg1_complete u3 pls st0 reg2 (truthy_uuid _) eq_refl Hnd Hgone)
    as [st3 Hrun3].
  destruct (for_reg1_sound u3 pls st0 st3 reg2 (truthy_uuid _) eq_refl Hrun3)
    as (_ & _ & Hreg3 & _ & _ & _ & _ & Hsc3 & _).
  exists st3, u3. split.
  { unfold bind. rewrite Hens'. by rewrite (for_pairs_complete _ pairs pls st0 HF). }
  split.
  { rewrite Hsc3. subst st0. simpl_state. apply lookup_insert_eq. }
  split.
  { subst u3 u1 st2. simpl_state. rewrite Hun1. apply uuid4_str_succ. }
  intros x pl Hx Ha. apply Hreg3. by apply (Forall2_adapter_in pairs pls x pl).
Qed.

(** What "the scope can be closed and reopened" means for an object [oid]
    whose context manager is [enter]/[exit], once [enter] succeeded into
    [st1]: the object holds scope [u1] with its handlers registered and
    tracked under it; [exit] deregisters them, forgets [u1] and resets the
    object's scope id, after which a second [exit] does nothing; entering
    again succeeds under a different scope [u3] and registers the handlers
    anew, tracked under [u3]. *)
Definition reopens (enter exit : M unit) (oid : nat) (pairs : list (Item * option Z))
    (st1 : State) : Prop :=
  exists u1, _scope_ids st1 !! oid = Some u1 /\
  (forall x pl, x ∈ pairs -> pair_adapter x = Some pl ->
     registry_of st1 !! plugin_name pl = Some pl /\
     plugin_name pl ∈ default ∅ (_session_tags st1 !! u1)) /\
  exists st2, exit st1 = (st2, inr tt) /\
  _scope_ids st2 !! oid = None /\ _session_tags st2 !! u1 = None /\
  (forall x pl, x ∈ pairs -> pair_adapter x = Some pl ->
     registry_of st2 !! plugin_name pl = None) /\
  exit st2 = (st2, inr tt) /\
  exists st3 u3, enter st2 = (st3, inr tt) /\
  _scope_ids st3 !! oid = Some u3 /\ u3 <> u1 /\
  (forall x pl, x ∈ pairs -> pair_adapter x = Some pl ->
     registry_of st3 !! plugin_name pl = Some pl /\
     plugin_name pl ∈ default ∅ (_session_tags st3 !! u3)).

Lemma reopens_ext (enter exit enter' exit' : M unit) oid pairs st1 :
  (forall st, enter st = enter' st) -> (forall st, exit st = exit' st) ->
  reopens enter exit oid pairs st1 -> reopens enter' exit' oid pairs st1.
Proof.
  intros Hen Hex (u1 & Hs1 & Hreg1 & st2 & Hx1 & Hs2 & Ht2 & Hgone & Hx2 & st3 & u3 &
                  Hn3 & Hs3 & Hne & Hreg3).
  exists u1. split; [done|]. split; [done|]. exists st2.
  rewrite <- !Hex. split; [done|]. do 4 (split; [done|]).
  exists st3, u3. rewrite <- Hen. done.
Qed.

Lemma scope_enter_reopens (oid : nat) (pairs : list (Item * option Z)) (msg : string)
    (st st1 : State) :
  (_plugin_manager st = None \/ _plugins_enabled st = true) ->
  scope_enter oid pairs msg st = (st1, inr tt) ->
  reopens (scope_enter oid pairs msg) (scope_exit oid) oid pairs st1.
Proof. apply scope_reentry. Qed.

(** The second group of the nested-scopes scenario. *)
Definition scope_b_group : PluginSet := mkPluginSet 3 "scope_b" [IFn permissive_blocker] None.

Definition state_A : State := fst (PluginSet__enter__ inner_group init_state).
Definition state_AB : State := fst (PluginSet__enter__ scope_b_group state_A).



(** The nested scenario run to the end: A's handler is registered under
    ["uuid-0"] and B's under ["uuid-1"]; closing B leaves exactly A's
    handler, and closing A afterwards leaves none. *)
Lemma nested_scopes_run :
  map fst (map_to_list (registry_of state_AB)) ≡ₚ ["auth_hook"; "permissive_block"] /\
  map fst (map_to_list (registry_of (fst (PluginSet__exit__ scope_b_group state_AB))))
    = ["auth_hook"] /\
  registry_of (fst (PluginSet__exit__ inner_group
                      (fst (PluginSet__exit__ scope_b_group state_AB)))) = ∅.
Proof.
  split; [|split; reflexivity].
  vm_compute. apply Permutation_swap || reflexivity.
Qed.

(** C9.  Entering a [PluginSet] or a [@plugin] instance whose scope id is set
    raises [RuntimeError] and leaves the state as it was; when an entry
    succeeds (from a state where an existing manager is enabled, as the
    module keeps it), a proper exit deregisters the scope once and resets the
    scope id, and the same object can then be entered again under a new scope
    id that registers its handlers. *)
Theorem context_manager_reentry (ps : PluginSet) (inst : PluginInstance) (st : State) :
  (forall u, _scope_ids st !! ps_oid ps = Some u ->
     PluginSet__enter__ ps st =
     (st, inl (RuntimeError "PluginSet is already active as a context manager."))) /\
  (forall u, _scope_ids st !! inst_oid inst = Some u ->
     _plugin_cm_enter inst st =
     (st, inl (RuntimeError "Plugin is already active as a context manager."))) /\
  ((_plugin_manager st = None \/ _plugins_enabled st = true) ->
   forall st1, PluginSet__enter__ ps st = (st1, inr tt) ->
   reopens (PluginSet__enter__ ps) (PluginSet__exit__ ps) (ps_oid ps) (flatten ps) st1) /\
  ((_plugin_manager st = None \/ _plugins_enabled st = true) ->
   forall st1, _plugin_cm_enter inst st = (st1, inr tt) ->
   reopens (_plugin_cm_enter inst) (_plugin_cm_exit inst) (inst_oid inst)
           [(IInstance inst, None)] st1).
Proof.
  split; [intros u Hu; unfold PluginSet__enter__; by rewrite Hu|].
  split; [intros u Hu; unfold _plugin_cm_enter; by rewrite Hu|].
  split.
  - intros Hen st1 Hrun. rewrite plugin_set_enter_eq in Hrun.
    apply (reopens_ext (scope_enter (ps_oid ps) (flatten ps) set_active_msg)
                       (scope_exit (ps_oid ps))).
    + intros s. by rewrite plugin_set_enter_eq.
    + intros s. by rewrite plugin_set_exit_eq.
    + by apply (scope_enter_reopens _ _ _ st).
  - intros Hen st1 Hrun. rewrite cm_enter_eq in Hrun.
    apply (reopens_ext (scope_enter (inst_oid inst) [(IInstance inst, None)] cm_active_msg)
                       (scope_exit (inst_oid inst))).
    + intros s. by rewrite cm_enter_eq.
    + intros s. by rewrite cm_exit_eq.
    + by apply (scope_enter_reopens _ _ _ st).
Qed.

Definition state_open : State :=
  fst (_plugin_cm_enter guard_instance (fst (PluginSet__enter__ inner_group init_state))).

(** C9 (witness).  From the initial state, [inner_group] and [guard_instance]
    can each be entered, exited and re-entered; with both open, entering
    either again raises. *)
Lemma context_manager_reentry_witness :
  PluginSet__enter__ inner_group state_open =
    (state_open, inl (RuntimeError "PluginSet is already active as a context manager.")) /\
  _plugin_cm_enter guard_instance state_open =
    (state_open, inl (RuntimeError "Plugin is already active as a context manager.")) /\
  reopens (PluginSet__enter__ inner_group) (PluginSet__exit__ inner_group) 2
          (flatten inner_group) (fst (PluginSet__enter__ inner_group init_state)) /\
  reopens (_plugin_cm_enter guard_instance) (_plugin_cm_exit guard_instance) 7
          [(IInstance guard_instance, None)] (fst (_plugin_cm_enter guard_instance init_state)).
Proof.
  destruct (context_manager_reentry inner_group guard_instance state_open)
    as (H1 & H2 & _ & _).
  destruct (context_manager_reentry inner_group guard_instance init_state)
    as (_ & _ & H3 & H4).
  split; [exact (H1 "uuid-0" eq_refl)|].
  split; [exact (H2 "uuid-1" eq_refl)|].
  split.
  - exact (H3 (or_introl eq_refl) _ eq_refl).
  - exact (H4 (or_introl eq_refl) _ eq_refl).
Defined.

(* ================================================================== *)
(** * Further properties of the plugin layer *)

(* ------------------------------------------------------------------ *)
(** ** registry.py: the structure of [register] *)

(** The [(item, priority_override)] pairs [register] hands to
    [_register_single] for one element of its list. *)
Definition register_item_pairs (item : Item) : list (Item * option Z) :=
  match item with
  | ISet ps => flatten ps
  | _ => [(item, None)]
  end.

Definition register_pairs_of (items : list Item) : list (Item * option Z) :=
  flat_map register_item_pairs items.

Lemma bind_ext {A B} (m : M A) (k1 k2 : A -> M B) (st : State) :
  (forall a s, k1 a s = k2 a s) -> bind m k1 st = bind m k2 st.
Proof. intros Hk. unfold bind. destruct (m st) as [s [e|a]]; auto. Qed.

Lemma bind_assoc {A B C} (m : M A) (k1 : A -> M B) (k2 : B -> M C) (st : State) :
  bind (bind m k1) k2 st = bind m (fun a => bind (k1 a) k2) st.
Proof. unfold bind. by destruct (m st) as [s [e|a]]. Qed.

Lemma for_app {A} (l1 l2 : list A) (f : A -> M unit) (st : State) :
  for_ (l1 ++ l2) f st = (for_ l1 f >>> for_ l2 f) st.
Proof.
  revert st. induction l1 as [|x l1 IH]; intros st; [done|].
  cbn [app for_]. rewrite bind_assoc. apply bind_ext. intros [] s. apply IH.
Qed.

Lemma for_flat_map {A B} (l : list A) (h : A -> list B) (g : A -> M unit)
    (f : B -> M unit) (st : State) :
  (forall x s, g x s = for_ (h x) f s) ->
  for_ l g st = for_ (flat_map h l) f st.
Proof.
  intros Hg. revert st. induction l as [|x l IH]; intros st; [done|].
  cbn [for_ flat_map]. rewrite for_app. unfold bind. rewrite Hg.
  destruct (for_ (h x) f st) as [s [e|[]]]; auto.
Qed.

Lemma register_flat (items : list Item) (sid : option string) (st : State) :
  register items sid st =
  (_ensure_plugin_manager >>> for_ (register_pairs_of items) (register_pair sid)) st.
Proof.
  unfold register. apply bind_ext. intros [] s. apply for_flat_map.
  intros [fn|inst|pl|ps|o] s'; cbn [register_item_pairs]; try reflexivity;
    cbn [for_]; by rewrite bind_ret_unit.
Qed.

Section Preservation2.
Variable P : State -> Prop.
Hypothesis P_ensure : forall st, P st -> P (fst (_ensure_plugin_manager st)).
Hypothesis P_reg1 : forall sid pl st, P st -> P (fst (reg1 sid pl st)).

Lemma P_register_pair (sid : option string) (x : Item * option Z) (st : State) :
  P st -> P (fst (register_pair sid x st)).
Proof.
  destruct x as [i p]. unfold register_pair. rewrite register_single_eq.
  destruct (pair_adapter (i, p)); [apply P_reg1 | done].
Qed.

Lemma P_register (items : list Item) (sid : option string) (st : State) :
  P st -> P (fst (register items sid st)).
Proof.
  intros Hst. rewrite register_flat. apply P_bind; [exact P_ensure| |done].
  intros _ s Hs. apply P_for; [|done]. intros x s'. apply P_register_pair.
Qed.
End Preservation2.

(** What [reg1] does for any [session_id] when the name is free. *)
Lemma reg1_fresh_any (sid : option string) (pl : Plugin) (st : State)
    (reg : gmap string Plugin) :
  _plugin_manager st = Some reg -> reg !! plugin_name pl = None ->
  exists st', reg1 sid pl st = (st', inr tt) /\
    _plugin_manager st' = Some (<[plugin_name pl := pl]> reg).
Proof.
  intros Hm Hn. unfold reg1, bind, pm_register. rewrite Hm.
  unfold registry_register. rewrite Hn. unfold track_if.
  destruct sid as [u|]; [destruct (truthy (Some u))|]; by eexists.
Qed.

Lemma for_reg1_iff (sid : option string) (pls : list Plugin) (st : State)
    (reg : gmap string Plugin) :
  _plugin_manager st = Some reg ->
  (exists st', for_ pls (reg1 sid) st = (st', inr tt)) <->
  NoDup (map plugin_name pls) /\ (forall pl, pl ∈ pls -> reg !! plugin_name pl = None).
Proof.
  revert st reg. induction pls as [|pl pls IH]; intros st reg Hm.
  - split; [intros _; split; [constructor | set_solver] | by eexists].
  - cbn [for_ map]. unfold bind at 1.
    destruct (reg !! plugin_name pl) as [p0|] eqn:Hn.
    + destruct (reg1_taken sid pl st reg p0 Hm Hn) as [e He]. rewrite He.
      split; [intros [st' Hst']; discriminate|].
      intros [_ Hfr]. rewrite (Hfr pl) in Hn; [discriminate|]. apply elem_of_cons. by left.
    + destruct (reg1_fresh_any sid pl st reg Hm Hn) as [st1 [Hr Hm1]]. rewrite Hr.
      rewrite (IH st1 _ Hm1). rewrite NoDup_cons. split.
      * intros [Hnd Hfr]. split; [split; [|done]|].
        -- intros Hin. apply list_elem_of_fmap in Hin as [q [Hq Hin]].
           specialize (Hfr q Hin). rewrite <- Hq, lookup_insert_eq in Hfr. discriminate.
        -- intros q Hq. apply elem_of_cons in Hq as [->|Hq]; [done|].
           specialize (Hfr q Hq). by apply lookup_insert_None in Hfr as [? _].
      * intros [[Hnot Hnd] Hfr]. split; [done|]. intros q Hq.
        apply lookup_insert_None. split.
        -- apply Hfr. apply elem_of_cons. by right.
        -- intros Heq. apply Hnot. apply list_elem_of_fmap. by exists q.
Qed.

Lemma Forall2_omap (l : list (Item * option Z)) (pls : list Plugin) :
  Forall2 (fun x pl => pair_adapter x = Some pl) l pls -> omap pair_adapter l = pls.
Proof.
  induction 1 as [|x pl l pls Hx _ IH]; [done|]. cbn. by rewrite Hx, IH.
Qed.

Lemma ensure_result (st : State) :
  exists st1, _ensure_plugin_manager st = (st1, inr tt) /\
    _plugin_manager st1 = Some (registry_of st) /\
    _session_tags st1 = _session_tags st /\ _scope_ids st1 = _scope_ids st /\
    uuid_next st1 = uuid_next st.
Proof.
  unfold _ensure_plugin_manager, registry_of.
  destruct (_plugin_manager st) eqn:Hm; eexists; (split; [reflexivity|]);
    destruct st; cbn in *; by subst.
Qed.

Lemma registry_of_fst_ensure (st : State) :
  registry_of (fst (_ensure_plugin_manager st)) = registry_of st.
Proof.
  unfold _ensure_plugin_manager, registry_of.
  destruct (_plugin_manager st) eqn:Hm; cbn; by rewrite ?Hm.
Qed.

(** The scope map after [track_if session_id name]. *)
Definition track_tags (sid : option string) (name : string)
    (tags : gmap string (gset string)) : gmap string (gset string) :=
  match sid with
  | Some s => if truthy sid then <[s := {[name]} ∪ default ∅ (tags !! s)]> tags else tags
  | None => tags
  end.

Lemma reg1_cases (sid : option string) (pl : Plugin) (st : State) :
  (exists e, reg1 sid pl st = (st, inl e)) \/
  (exists reg, _plugin_manager st = Some reg /\ reg !! plugin_name pl = None /\
     reg1 sid pl st =
     (mkState (Some (<[plugin_name pl := pl]> reg)) (_plugins_enabled st)
              (track_tags sid (plugin_name pl) (_session_tags st))
              (_scope_ids st) (uuid_next st), inr tt)).
Proof.
  unfold reg1, bind, pm_register.
  destruct (_plugin_manager st) as [reg|] eqn:Hm; [|left; by eexists].
  unfold registry_register. destruct (reg !! plugin_name pl) eqn:Hn; [left; by eexists|].
  right. exists reg. split; [done|]. split; [done|].
  unfold track_if, track_tags. destruct sid as [s|]; [destruct (truthy (Some s))|];
    by destruct st.
Qed.

Lemma Forall_adapters_Forall2 (l : list (Item * option Z)) :
  Forall (fun x => is_Some (pair_adapter x)) l ->
  Forall2 (fun x pl => pair_adapter x = Some pl) l (omap pair_adapter l).
Proof.
  induction 1 as [|x l [pl Hx] _ IH]; [constructor|]. cbn. rewrite Hx. by constructor.
Qed.

Lemma Forall2_adapters_Forall (l : list (Item * option Z)) (pls : list Plugin) :
  Forall2 (fun x pl => pair_adapter x = Some pl) l pls ->
  Forall (fun x => is_Some (pair_adapter x)) l.
Proof. induction 1; constructor; [by eexists | done]. Qed.

Lemma for_reg1_tags_other (sid : option string) (pls : list Plugin) (st : State)
    (t : string) :
  (sid <> Some t \/ truthy sid = false) ->
  _session_tags (fst (for_ pls (reg1 sid) st)) !! t = _session_tags st !! t.
Proof.
  intros Hsid.
  apply (P_for (fun s => _session_tags s !! t = _session_tags st !! t)); [|done].
  intros pl s Hs. destruct (reg1_cases sid pl s) as [[e ->]|(reg & _ & _ & ->)]; [done|].
  cbn. rewrite <- Hs. unfold track_tags. destruct sid as [u|]; [|done].
  destruct (truthy (Some u)) eqn:Ht; [|done].
  rewrite lookup_insert_ne; [done|]. intros ->. destruct Hsid; congruence.
Qed.

Lemma for_reg1_tags_scope (s : string) (pls : list Plugin) (st st' : State) :
  truthy (Some s) = true ->
  for_ pls (reg1 (Some s)) st = (st', inr tt) ->
  default ∅ (_session_tags st' !! s) =
  default ∅ (_session_tags st !! s) ∪ list_to_set (map plugin_name pls).
Proof.
  intros Hs. revert st. induction pls as [|pl pls IH]; intros st Hrun.
  - cbn in Hrun. injection Hrun as <-. cbn. set_solver.
  - cbn [for_] in Hrun. unfold bind at 1 in Hrun.
    destruct (reg1_cases (Some s) pl st) as [[e He]|(reg & _ & _ & He)];
      rewrite He in Hrun; [discriminate|].
    rewrite (IH _ Hrun). cbn [_session_tags]. unfold track_tags. rewrite Hs, lookup_insert_eq. cbn.
    set_solver.
Qed.

Lemma reg1_registry (sid : option string) (pl : Plugin) (st : State) n p :
  registry_of st !! n = Some p -> registry_of (fst (reg1 sid pl st)) !! n = Some p.
Proof.
  intros Hp. destruct (reg1_cases sid pl st) as [[e ->]|(reg & Hm & Hn & ->)]; [done|].
  unfold registry_of in *. rewrite Hm in Hp. cbn.
  rewrite lookup_insert_ne; [done|]. intros Heq. rewrite Heq in Hn. cbn in Hp. congruence.
Qed.

Lemma reg1_manager_some (sid : option string) (pl : Plugin) (st : State) :
  is_Some (_plugin_manager st) -> is_Some (_plugin_manager (fst (reg1 sid pl st))).
Proof.
  intros Hm. destruct (reg1_cases sid pl st) as [[e ->]|(reg & _ & _ & ->)]; [done|].
  cbn. by eexists.
Qed.

(** X1.  [register(items, session_id=...)] returns normally exactly when every
    pair it flattens the items into is registrable (a [@hook] function, a
    [@plugin] instance or a plugin), their plugin names are pairwise distinct
    and none of them is already registered. *)
Theorem register_succeeds_iff (items : list Item) (sid : option string) (st : State) :
  (exists st', register items sid st = (st', inr tt)) <->
  Forall (fun x => is_Some (pair_adapter x)) (register_pairs_of items) /\
  NoDup (map plugin_name (omap pair_adapter (register_pairs_of items))) /\
  (forall pl, pl ∈ omap pair_adapter (register_pairs_of items) ->
     registry_of st !! plugin_name pl = None).
Proof.
  rewrite register_flat.
  destruct (ensure_result st) as (st1 & Hens & Hm1 & _).
  unfold bind. rewrite Hens. split.
  - intros [st' Hrun]. destruct (for_pairs_sound _ _ _ _ Hrun) as [pls [HF Hpls]].
    rewrite (Forall2_omap _ _ HF).
    split; [by eapply Forall2_adapters_Forall|].
    apply (for_reg1_iff sid pls st1 _ Hm1). by eexists.
  - intros (Hall & Hnd & Hfr).
    rewrite (for_pairs_complete _ _ _ st1 (Forall_adapters_Forall2 _ Hall)).
    apply (for_reg1_iff sid _ st1 _ Hm1). done.
Qed.

(** X2.  [register] never unregisters or replaces a plugin: whatever it
    returns or raises, every name registered before is still registered to
    the same plugin after, so a failure part-way through keeps the plugins
    registered before it (there is no rollback). *)
Theorem register_monotone (items : list Item) (sid : option string) (st : State)
    (n : string) (p : Plugin) :
  registry_of st !! n = Some p ->
  registry_of (fst (register items sid st)) !! n = Some p.
Proof.
  apply (P_register (fun s => registry_of s !! n = Some p)).
  - intros s Hs. by rewrite registry_of_fst_ensure.
  - intros. by apply reg1_registry.
Qed.

Lemma for_register_pair_manager (l : list (Item * option Z)) (sid : option string)
    (st : State) :
  is_Some (_plugin_manager st) ->
  is_Some (_plugin_manager (fst (for_ l (register_pair sid) st))).
Proof.
  intros Hm. apply (P_for (fun s => is_Some (_plugin_manager s))); [|done].
  intros x s Hs. apply (P_register_pair (fun s => is_Some (_plugin_manager s))); [|done].
  intros. by apply reg1_manager_some.
Qed.

(** X3.  Registering [l1 ++ l2] is registering [l1] and then, if that
    returned normally, [l2]: the items are handled one after the other and
    the manager is created at most once. *)
Theorem register_append (l1 l2 : list Item) (sid : option string) (st : State) :
  register (l1 ++ l2) sid st = (register l1 sid >>> register l2 sid) st.
Proof.
  change ((register l1 sid >>> register l2 sid) st) with
    (match register l1 sid st with
     | (s', inl e) => (s', inl e)
     | (s', inr _) => register l2 sid s'
     end).
  rewrite !register_flat.
  destruct (ensure_result st) as (st1 & Hens & Hm1 & _).
  unfold bind. rewrite Hens.
  unfold register_pairs_of. rewrite flat_map_app, for_app. unfold bind.
  destruct (for_ (flat_map register_item_pairs l1) (register_pair sid) st1)
    as [s [e|[]]] eqn:E; [done|].
  rewrite register_flat. unfold bind.
  assert (Hs : is_Some (_plugin_manager s)).
  { change s with (fst (s, @inr Exc unit tt)). rewrite <- E.
    apply for_register_pair_manager. by eexists. }
  unfold _ensure_plugin_manager at 1. destruct (_plugin_manager s); [done|].
  by destruct Hs.
Qed.

(** X4.  [register] never changes an object's scope id or the identifier
    source, and a global registration ([session_id] [None] or [""]) never
    touches the scope map, whether it returns or raises. *)
Theorem register_scope_frame (items : list Item) (sid : option string) (st : State) :
  let st' := fst (register items sid st) in
  _scope_ids st' = _scope_ids st /\ uuid_next st' = uuid_next st /\
  (truthy sid = false -> _session_tags st' = _session_tags st).
Proof.
  cbv zeta. split; [|split].
  - apply (P_register (fun s => _scope_ids s = _scope_ids st)); [| |done].
    + intros s Hs. destruct (ensure_result s) as (s1 & -> & _ & _ & Hsc & _). cbn [fst]. congruence.
    + intros sid' pl s Hs.
      by destruct (reg1_cases sid' pl s) as [[e ->]|(reg & _ & _ & ->)]; cbn.
  - apply (P_register (fun s => uuid_next s = uuid_next st)); [| |done].
    + intros s Hs. destruct (ensure_result s) as (s1 & -> & _ & _ & _ & Hu). cbn [fst]. congruence.
    + intros sid' pl s Hs.
      by destruct (reg1_cases sid' pl s) as [[e ->]|(reg & _ & _ & ->)]; cbn.
  - intros Hf. rewrite register_flat.
    apply (P_bind (fun s => _session_tags s = _session_tags st)); [| |done].
    + intros s Hs. destruct (ensure_result s) as (s1 & -> & _ & Ht & _). cbn [fst]. congruence.
    + intros _ s Hs. apply (P_for (fun s => _session_tags s = _session_tags st)); [|done].
      intros [i p] s' Hs'. unfold register_pair. rewrite register_single_eq.
      destruct (pair_adapter (i, p)) as [pl|]; [|done].
      destruct (reg1_cases sid pl s') as [[e ->]|(reg & _ & _ & ->)]; [done|].
      cbn [fst _session_tags]. rewrite <- Hs'. unfold track_tags.
      destruct sid as [u|]; [rewrite Hf|]; done.
Qed.

Lemma register_scope_frame_witness :
  truthy None = false /\
  _session_tags (fst (register [IFn auth_hook] None init_state)) = _session_tags init_state.
Proof.
  split; [reflexivity|].
  destruct (register_scope_frame [IFn auth_hook] None init_state) as (_ & _ & Ht).
  apply Ht. reflexivity.
Defined.

(** X5.  A scoped registration that returns normally tracks under its scope
    exactly the names of the plugins it registered, added to those already
    tracked there, and leaves every other scope's entry as it was. *)
Theorem register_scoped_tracking (items : list Item) (s : string) (st st' : State) :
  truthy (Some s) = true ->
  register items (Some s) st = (st', inr tt) ->
  (forall t, t <> s -> _session_tags st' !! t = _session_tags st !! t) /\
  default ∅ (_session_tags st' !! s) =
  default ∅ (_session_tags st !! s) ∪
  list_to_set (map plugin_name (omap pair_adapter (register_pairs_of items))).
Proof.
  intros Hs Hrun. rewrite register_flat in Hrun.
  destruct (ensure_result st) as (st1 & Hens & _ & Ht1 & _).
  unfold bind in Hrun. rewrite Hens in Hrun.
  destruct (for_pairs_sound _ _ _ _ Hrun) as [pls [HF Hpls]].
  rewrite (Forall2_omap _ _ HF). split.
  - intros t Hts. rewrite <- Ht1.
    assert (Hne : Some s <> Some t) by congruence.
    pose proof (for_reg1_tags_other (Some s) pls st1 t (or_introl Hne)) as H.
    by rewrite Hpls in H.
  - rewrite <- Ht1. by apply (for_reg1_tags_scope s pls st1 st').
Qed.

Lemma register_scoped_tracking_witness :
  truthy (Some "scope") = true /\
  register [ISet outer_group] (Some "scope") init_state =
    (fst (register [ISet outer_group] (Some "scope") init_state), inr tt) /\
  ((forall t, t <> "scope" ->
     _session_tags (fst (register [ISet outer_group] (Some "scope") init_state)) !! t =
     _session_tags init_state !! t) /\
   default ∅ (_session_tags (fst (register [ISet outer_group] (Some "scope") init_state))
                !! "scope") =
   default ∅ (_session_tags init_state !! "scope") ∪
   list_to_set (map plugin_name (omap pair_adapter (register_pairs_of [ISet outer_group])))).
Proof.
  split; [reflexivity|]. split; [reflexivity|].
  apply register_scoped_tracking; reflexivity.
Defined.

Lemma register_monotone_witness :
  registry_of after_register_auth !! "auth_hook" = Some auth_adapter /\
  registry_of (fst (register [IFn auth_hook] None after_register_auth)) !! "auth_hook"
    = Some auth_adapter.
Proof.
  split; [reflexivity|]. apply register_monotone. reflexivity.
Defined.

Lemma deregister_absent (s : string) (st : State) :
  _session_tags st !! s = None -> deregister_session_plugins s st = (st, inr tt).
Proof.
  intros Hs. unfold deregister_session_plugins.
  destruct (_plugins_enabled st); [|done]. cbn [negb].
  destruct (_plugin_manager st); [|done].
  rewrite Hs. cbn [default]. rewrite elements_empty. cbn.
  rewrite delete_id by done. by destruct st.
Qed.

(** X6.  Closing a scope the scope map does not know (never opened, or
    already closed) changes nothing and returns normally. *)
Theorem deregister_unknown_scope (s : string) (st : State) :
  _session_tags st !! s = None -> deregister_session_plugins s st = (st, inr tt).
Proof. apply deregister_absent. Qed.

Lemma deregister_unknown_scope_witness :
  _session_tags after_register_auth !! "no-such-scope" = None /\
  deregister_session_plugins "no-such-scope" after_register_auth =
    (after_register_auth, inr tt).
Proof. split; [reflexivity|]. apply deregister_unknown_scope. reflexivity. Defined.

(** X7.  [deregister_session_plugins] never raises (a name already
    unregistered is skipped), and closing the same scope a second time
    changes nothing. *)
Theorem deregister_idempotent (s : string) (st : State) :
  snd (deregister_session_plugins s st) = inr tt /\
  deregister_session_plugins s (fst (deregister_session_plugins s st)) =
  (fst (deregister_session_plugins s st), inr tt).
Proof.
  assert (Hd : deregister_session_plugins s st = (st, inr tt) \/
               exists reg', deregister_session_plugins s st =
                 (set_manager (set_tags st (delete s (_session_tags st))) (Some reg'),
                  inr tt)).
  { unfold deregister_session_plugins.
    destruct (_plugins_enabled st); cbn [negb]; [|by left].
    destruct (_plugin_manager st) as [reg|] eqn:Hm; [|by left]. right.
    destruct (for_unregister (elements (default ∅ (_session_tags st !! s)))
                (set_tags st (delete s (_session_tags st))) reg ltac:(by destruct st))
      as [reg' [Hrun _]].
    by exists reg'. }
  destruct Hd as [Hd|[reg' Hd]]; rewrite Hd; cbn [fst snd].
  - split; [done|]. exact Hd.
  - split; [done|]. apply deregister_absent.
    destruct st; cbn. apply lookup_delete_eq.
Qed.

(* ------------------------------------------------------------------ *)
(** ** manager.py: [shutdown_plugins] and [initialize_plugins] *)

(** [shutdown_plugins()].  The manager's own [shutdown()] (the plugins'
    shutdown callbacks) touches none of the state modelled here. *)
Definition shutdown_plugins : M unit :=
  fun st => (mkState None false ∅ (_scope_ids st) (uuid_next st), inr tt).

(** [initialize_plugins()] without a [config_path].  Modelled from the spec:
    [PluginManager.reset()] followed by [PluginManager("")] gives a manager
    whose registry is empty, as for the lazily created one of
    [_ensure_plugin_manager]. *)
Definition initialize_plugins : M unit :=
  fun st => (set_enabled (set_manager st (Some ∅)) true, inr tt).

Lemma deregister_scope_ids (s : string) (st : State) :
  _scope_ids (fst (deregister_session_plugins s st)) = _scope_ids st.
Proof.
  unfold deregister_session_plugins.
  destruct (_plugins_enabled st); [|done]. cbn [negb].
  destruct (_plugin_manager st); [|done].
  apply (P_for (fun s' => _scope_ids s' = _scope_ids st)); [|by destruct st].
  intros x s' Hs'. unfold unregister_quiet.
  destruct (_plugin_manager s') as [r|]; [|done].
  unfold registry_unregister. destruct (r !! x); cbn [fst]; [|exact Hs'].
  by destruct s'.
Qed.

(** X8.  After [shutdown_plugins()] the module is back to its unconfigured
    state: no registry, plugins disabled, no scope tracked, so every
    [invoke_hook] returns [(None, payload)] untouched and closing any scope
    is a no-op.  The objects' scope ids are kept, so an object still inside
    its [with] block can be exited, which only clears its scope id. *)
Theorem shutdown_resets (st : State) :
  let st' := fst (shutdown_plugins st) in
  snd (shutdown_plugins st) = inr tt /\
  wf st' /\ registry_of st' = ∅ /\ _session_tags st' = ∅ /\
  (forall h p sid rid, invoke_hook h p sid rid st' = (st', inr (None, p))) /\
  (forall s, deregister_session_plugins s st' = (st', inr tt)) /\
  _scope_ids st' = _scope_ids st.
Proof. cbv zeta. repeat split. Qed.

Lemma track_tags_mono (sid : option string) (n x t : string)
    (tags : gmap string (gset string)) :
  x ∈ default ∅ (tags !! t) -> x ∈ default ∅ (track_tags sid n tags !! t).
Proof.
  intros Hx. unfold track_tags. destruct sid as [u|]; [|done].
  destruct (truthy (Some u)); [|done].
  destruct (decide (u = t)) as [->|Hne].
  - rewrite lookup_insert_eq. cbn. set_solver.
  - by rewrite lookup_insert_ne.
Qed.

(** X9.  [initialize_plugins()] replaces the registry by an empty one but
    keeps the scope map: a scope [s] still tracking a name goes on tracking
    it, so after a plugin of that name is registered again (under any
    scope, or globally), closing [s] unregisters that new plugin. *)
Theorem initialize_keeps_stale_scopes (st : State) (s : string) (ns : gset string)
    (pl : Plugin) (sid : option string) :
  _session_tags st !! s = Some ns -> plugin_name pl ∈ ns ->
  let st1 := fst (initialize_plugins st) in
  registry_of st1 = ∅ /\ _session_tags st1 = _session_tags st /\
  exists st2, register [IMelleaPlugin pl] sid st1 = (st2, inr tt) /\
    registry_of st2 !! plugin_name pl = Some pl /\
    registry_of (fst (deregister_session_plugins s st2)) !! plugin_name pl = None.
Proof.
  intros Hs Hn. cbv zeta. split; [done|]. split; [by destruct st|].
  set (st1 := set_enabled (set_manager st (Some ∅)) true).
  change (fst (initialize_plugins st)) with st1.
  assert (Hm1 : _plugin_manager st1 = Some ∅) by done.
  destruct (reg1_cases sid pl st1) as [[e He]|(reg & Hm & Hfree & Hr)].
  { exfalso. unfold reg1, bind, pm_register in He. rewrite Hm1 in He.
    unfold registry_register in He. rewrite lookup_empty in He. cbn in He.
    destruct (track_if sid (plugin_name pl) _) as [? [?|[]]] eqn:Et;
      pose proof (track_if_manager sid (plugin_name pl)
        (set_manager st1 (Some (<[plugin_name pl:=pl]> ∅)))) as [_ Ht];
      rewrite Et in Ht; cbn in Ht; congruence. }
  rewrite Hm1 in Hm. injection Hm as <-.
  eexists. split.
  { assert (Hens : _ensure_plugin_manager st1 = (st1, inr tt)) by reflexivity.
    rewrite register_flat. unfold bind at 1.
    rewrite Hens.
    cbn [register_pairs_of flat_map register_item_pairs app for_].
    rewrite bind_ret_unit. cbn [register_pair]. rewrite register_single_eq.
    exact Hr. }
  split; [unfold registry_of; cbn; apply lookup_insert_eq|].
  unfold deregister_session_plugins. cbn [_plugins_enabled _plugin_manager negb].
  set (st2 := mkState _ _ _ _ _).
  destruct (for_unregister (elements (default ∅ (_session_tags st2 !! s)))
              (set_tags st2 (delete s (_session_tags st2))) (<[plugin_name pl:=pl]> ∅)
              eq_refl) as [reg' [Hrun Hlook]].
  rewrite Hrun. unfold registry_of. cbn. rewrite Hlook. rewrite decide_True; [done|].
  apply elem_of_elements. subst st2. cbn.
  apply track_tags_mono. rewrite Hs. exact Hn.
Qed.

Lemma initialize_keeps_stale_scopes_witness :
  _session_tags state_AB !! "uuid-0" = Some {["auth_hook"]} /\
  plugin_name auth_adapter ∈ ({["auth_hook"]} : gset string) /\
  (let st1 := fst (initialize_plugins state_AB) in
   registry_of st1 = ∅ /\ _session_tags st1 = _session_tags state_AB /\
   exists st2, register [IMelleaPlugin auth_adapter] (Some "other") st1 = (st2, inr tt) /\
     registry_of st2 !! plugin_name auth_adapter = Some auth_adapter /\
     registry_of (fst (deregister_session_plugins "uuid-0" st2))
       !! plugin_name auth_adapter = None).
Proof.
  split; [reflexivity|]. split; [apply elem_of_singleton; reflexivity|].
  apply (initialize_keeps_stale_scopes state_AB "uuid-0" {["auth_hook"]});
    [reflexivity | apply elem_of_singleton; reflexivity].
Defined.


(* ------------------------------------------------------------------ *)
(** ** base.py: [MelleaPlugin.__enter__] and [MelleaPlugin.__exit__] *)

(** The message of [MelleaPlugin.__enter__]'s [RuntimeError]; [{self.name!r}]
    is rendered as the name between single quotes (its [repr] for a name
    without quotes or backslashes). *)
Definition mp_active_msg (name : string) : string :=
  "MelleaPlugin '" +:+ name +:+ "' is already active as a context manager. "
  +:+ "Concurrent or nested reuse of the same instance is not supported; "
  +:+ "create a new instance instead.".

(** [MelleaPlugin.__enter__] on the instance [self] whose object identity is
    [self_oid]; its [_scope_id] attribute is [_scope_ids !! self_oid]. *)
Definition MelleaPlugin__enter__ (self_oid : nat) (self : Plugin) : M unit :=
  fun st =>
    match _scope_ids st !! self_oid with
    | Some _ => (st, inl (RuntimeError (mp_active_msg (plugin_name self))))
    | None =>
        let scope := uuid4_str (uuid_next st) in
        let st1 := set_scope_ids (set_uuid_next st (N.succ (uuid_next st)))
                                 (<[self_oid := scope]> (_scope_ids st)) in
        register [IMelleaPlugin self] (Some scope) st1
    end.

(** [MelleaPlugin.__exit__] *)
Definition MelleaPlugin__exit__ (self_oid : nat) : M unit :=
  fun st =>
    match _scope_ids st !! self_oid with
    | Some scope =>
        (deregister_session_plugins scope >>>
         modify (fun st' => set_scope_ids st' (delete self_oid (_scope_ids st')))) st
    | None => (st, inr tt)
    end.

Lemma register_mellea_eq (pl : Plugin) (sid : option string) (st : State) :
  register [IMelleaPlugin pl] sid st = bind _ensure_plugin_manager
    (fun _ => for_ [(IMelleaPlugin pl, None)] (register_pair sid)) st.
Proof.
  unfold register. cbn [for_]. unfold bind at 1 3.
  destruct (_ensure_plugin_manager st) as [st1 [e|[]]]; [done|].
  rewrite bind_ret_unit. cbn [for_]. by rewrite bind_ret_unit.
Qed.

Lemma mp_enter_eq (oid : nat) (pl : Plugin) (st : State) :
  MelleaPlugin__enter__ oid pl st =
  scope_enter oid [(IMelleaPlugin pl, None)] (mp_active_msg (plugin_name pl)) st.
Proof.
  unfold MelleaPlugin__enter__, scope_enter. destruct (_scope_ids st !! oid); [done|].
  apply register_mellea_eq.
Qed.

Lemma mp_exit_eq (oid : nat) (st : State) :
  MelleaPlugin__exit__ oid st = scope_exit oid st.
Proof. reflexivity. Qed.

(** X10.  A [MelleaPlugin] used as a context manager refuses to be entered
    while its scope is open, raising [RuntimeError] with the state unchanged;
    once entered, it is registered and tracked under its scope, exiting
    unregisters it and clears the scope, a second exit does nothing, and it
    can be entered again under a fresh scope. *)
Theorem mellea_plugin_reentry (oid : nat) (pl : Plugin) (st : State) :
  (forall u, _scope_ids st !! oid = Some u ->
     MelleaPlugin__enter__ oid pl st =
     (st, inl (RuntimeError (mp_active_msg (plugin_name pl))))) /\
  ((_plugin_manager st = None \/ _plugins_enabled st = true) ->
   forall st1, MelleaPlugin__enter__ oid pl st = (st1, inr tt) ->
   reopens (MelleaPlugin__enter__ oid pl) (MelleaPlugin__exit__ oid) oid
           [(IMelleaPlugin pl, None)] st1).
Proof.
  split; [intros u Hu; unfold MelleaPlugin__enter__; by rewrite Hu|].
  intros Hen st1 Hrun. rewrite mp_enter_eq in Hrun.
  apply (reopens_ext (scope_enter oid [(IMelleaPlugin pl, None)] (mp_active_msg (plugin_name pl)))
                     (scope_exit oid)).
  - intros s. symmetry. apply mp_enter_eq.
  - intros s. symmetry. apply mp_exit_eq.
  - by apply (scope_enter_reopens _ _ _ st).
Qed.

Lemma mellea_plugin_reentry_witness :
  MelleaPlugin__enter__ 9 auth_adapter (fst (MelleaPlugin__enter__ 9 auth_adapter init_state)) =
    (fst (MelleaPlugin__enter__ 9 auth_adapter init_state),
     inl (RuntimeError (mp_active_msg "auth_hook"))) /\
  reopens (MelleaPlugin__enter__ 9 auth_adapter) (MelleaPlugin__exit__ 9) 9
          [(IMelleaPlugin auth_adapter, None)]
          (fst (MelleaPlugin__enter__ 9 auth_adapter init_state)).
Proof.
  split.
  - apply (proj1 (mellea_plugin_reentry 9 auth_adapter
                    (fst (MelleaPlugin__enter__ 9 auth_adapter init_state))) "uuid-0").
    reflexivity.
  - apply (proj2 (mellea_plugin_reentry 9 auth_adapter init_state)); [left; reflexivity|].
    reflexivity.
Defined.

Lemma register_pair_scope_ids (sid : option string) (x : Item * option Z) (st : State) :
  _scope_ids (fst (register_pair sid x st)) = _scope_ids st.
Proof.
  refine (P_register_pair (fun s => _scope_ids s = _scope_ids st) _ sid x st eq_refl).
  intros sid' pl s Hs.
    by destruct (reg1_cases sid' pl s) as [[e ->]|(reg & _ & _ & ->)]; cbn.
Qed.

Lemma scope_enter_scope_ids (oid : nat) (pairs : list (Item * option Z)) (msg : string)
    (st : State) :
  _scope_ids st !! oid = None ->
  _scope_ids (fst (scope_enter oid pairs msg st)) =
  <[oid := uuid4_str (uuid_next st)]> (_scope_ids st).
Proof.
  intros Hn. unfold scope_enter. rewrite Hn. cbv zeta.
  set (st1 := set_scope_ids _ _).
  apply (P_bind (fun s => _scope_ids s = _scope_ids st1)); [| |done].
  - intros s Hs. destruct (ensure_result s) as (s1 & -> & _ & _ & Hsc & _). cbn [fst]. congruence.
  - intros _ s Hs. apply (P_for (fun s => _scope_ids s = _scope_ids st1)); [|done].
    intros x s' Hs'. by rewrite register_pair_scope_ids.
Qed.

Lemma for_unregister_quiet_ok (l : list string) (st : State) :
  snd (for_ l unregister_quiet st) = inr tt.
Proof.
  revert st. induction l as [|x l IH]; intros st; [done|].
  cbn [for_]. unfold bind at 1, unregister_quiet at 1.
  destruct (_plugin_manager st) as [r|]; [|apply IH].
  destruct (registry_unregister x r); apply IH.
Qed.

Lemma deregister_ok (s : string) (st : State) :
  snd (deregister_session_plugins s st) = inr tt.
Proof.
  unfold deregister_session_plugins.
  destruct (_plugins_enabled st); [|done]. cbn [negb].
  destruct (_plugin_manager st); [|done]. apply for_unregister_quiet_ok.
Qed.

Lemma scope_exit_clears (oid : nat) (st : State) :
  _scope_ids (fst (scope_exit oid st)) !! oid = None.
Proof.
  unfold scope_exit. destruct (_scope_ids st !! oid) as [u|] eqn:Hu; [|done].
  pose proof (deregister_ok u st) as Hok.
  unfold bind, modify. destruct (deregister_session_plugins u st) as [s1 [e|[]]];
    cbn in Hok; [discriminate|].
  cbn. apply lookup_delete_eq.
Qed.

(** X11.  If entering a [PluginSet] or a [@plugin] instance raises after the
    reentry check (a name already registered, an item that cannot be
    registered), the object's scope id has already been set, so the object
    stays "active": entering it again raises [RuntimeError] until [__exit__]
    is called, which clears the scope id. *)
Theorem enter_failure_keeps_scope (ps : PluginSet) (inst : PluginInstance)
    (st st1 st2 : State) (e1 e2 : Exc) :
  (_scope_ids st !! ps_oid ps = None -> PluginSet__enter__ ps st = (st1, inl e1) ->
   _scope_ids st1 !! ps_oid ps = Some (uuid4_str (uuid_next st)) /\
   PluginSet__enter__ ps st1 = (st1, inl (RuntimeError set_active_msg)) /\
   _scope_ids (fst (PluginSet__exit__ ps st1)) !! ps_oid ps = None) /\
  (_scope_ids st !! inst_oid inst = None -> _plugin_cm_enter inst st = (st2, inl e2) ->
   _scope_ids st2 !! inst_oid inst = Some (uuid4_str (uuid_next st)) /\
   _plugin_cm_enter inst st2 = (st2, inl (RuntimeError cm_active_msg)) /\
   _scope_ids (fst (_plugin_cm_exit inst st2)) !! inst_oid inst = None).
Proof.
  split.
  - intros Hn Hrun.
    pose proof (scope_enter_scope_ids (ps_oid ps) (flatten ps) set_active_msg st Hn) as Hs.
    rewrite <- plugin_set_enter_eq, Hrun in Hs. cbn [fst] in Hs.
    assert (Hu : _scope_ids st1 !! ps_oid ps = Some (uuid4_str (uuid_next st)))
      by (rewrite Hs; apply lookup_insert_eq).
    split; [done|]. split.
    + unfold PluginSet__enter__. by rewrite Hu.
    + rewrite plugin_set_exit_eq. apply scope_exit_clears.
  - intros Hn Hrun.
    pose proof (scope_enter_scope_ids (inst_oid inst) [(IInstance inst, None)] cm_active_msg
                  st Hn) as Hs.
    rewrite <- cm_enter_eq, Hrun in Hs. cbn [fst] in Hs.
    assert (Hu : _scope_ids st2 !! inst_oid inst = Some (uuid4_str (uuid_next st)))
      by (rewrite Hs; apply lookup_insert_eq).
    split; [done|]. split.
    + unfold _plugin_cm_enter. by rewrite Hu.
    + rewrite cm_exit_eq. apply scope_exit_clears.
Qed.

(** A group holding the same hook function twice: its second registration
    fails with a duplicate name. *)
Definition dup_group : PluginSet := mkPluginSet 4 "dup" [IFn auth_hook; IFn auth_hook] None.

(** A state where [guard_instance]'s adapter, named ["guard"], is registered globally. *)
Definition guard_registered : State := fst (register [IInstance guard_instance] None init_state).

Lemma enter_failure_keeps_scope_witness :
  PluginSet__enter__ dup_group guard_registered =
    (fst (PluginSet__enter__ dup_group guard_registered),
     inl (ValueError ("Plugin " +:+ "auth_hook" +:+ " already registered"))) /\
  _plugin_cm_enter guard_instance guard_registered =
    (fst (_plugin_cm_enter guard_instance guard_registered),
     inl (ValueError ("Plugin " +:+ "guard" +:+ " already registered"))) /\
  ((_scope_ids (fst (PluginSet__enter__ dup_group guard_registered)) !! ps_oid dup_group
      = Some (uuid4_str (uuid_next guard_registered)) /\
    PluginSet__enter__ dup_group (fst (PluginSet__enter__ dup_group guard_registered)) =
      (fst (PluginSet__enter__ dup_group guard_registered), inl (RuntimeError set_active_msg)) /\
    _scope_ids (fst (PluginSet__exit__ dup_group
                       (fst (PluginSet__enter__ dup_group guard_registered))))
      !! ps_oid dup_group = None) /\
   (_scope_ids (fst (_plugin_cm_enter guard_instance guard_registered)) !! inst_oid guard_instance
      = Some (uuid4_str (uuid_next guard_registered)) /\
    _plugin_cm_enter guard_instance (fst (_plugin_cm_enter guard_instance guard_registered)) =
      (fst (_plugin_cm_enter guard_instance guard_registered),
       inl (RuntimeError cm_active_msg)) /\
    _scope_ids (fst (_plugin_cm_exit guard_instance
                       (fst (_plugin_cm_enter guard_instance guard_registered))))
      !! inst_oid guard_instance = None)).
Proof.
  assert (H1 : PluginSet__enter__ dup_group guard_registered =
    (fst (PluginSet__enter__ dup_group guard_registered),
     inl (ValueError ("Plugin " +:+ "auth_hook" +:+ " already registered"))))
    by reflexivity.
  assert (H2 : _plugin_cm_enter guard_instance guard_registered =
    (fst (_plugin_cm_enter guard_instance guard_registered),
     inl (ValueError ("Plugin " +:+ "guard" +:+ " already registered"))))
    by reflexivity.
  split; [exact H1|]. split; [exact H2|].
  destruct (enter_failure_keeps_scope dup_group guard_instance guard_registered
              (fst (PluginSet__enter__ dup_group guard_registered))
              (fst (_plugin_cm_enter guard_instance guard_registered))
              (ValueError ("Plugin " +:+ "auth_hook" +:+ " already registered"))
              (ValueError ("Plugin " +:+ "guard" +:+ " already registered")))
    as [Ha Hb].
  split; [apply Ha; [reflexivity | exact H1] | apply Hb; [reflexivity | exact H2]].
Defined.

(* ------------------------------------------------------------------ *)
(** ** registry.py: which method discovery keeps *)

(** The attribute [dir(instance)] lists under [name], seen by the discovery
    loop of [_ClassPluginAdapter.__init__]: skipped when private or without
    [_mellea_hook_meta]. *)
Definition attr_hook (a : string * Attr) : option (HookBody * HookMeta) :=
  let '(name, attr) := a in
  if String.prefix "_" name then None
  else match attr with
       | AttrVal (Some m) body => Some (body, m)
       | _ => None
       end.

Lemma discover_step_attr_hook d (a : string * Attr) :
  discover_step d a =
  match attr_hook a with
  | Some bm => dict_set d (hm_hook_type (snd bm)) bm
  | None => d
  end.
Proof.
  destruct a as [name attr]. cbn [discover_step attr_hook].
  destruct (String.prefix "_" name); [done|]. by destruct attr as [|[m|] body].
Qed.

Lemma last_cons_opt {A} (x : A) (l : list A) :
  last (x :: l) = match last l with Some y => Some y | None => Some x end.
Proof.
  destruct (last l) as [y|] eqn:Hl; [by apply last_cons_some|].
  apply last_None in Hl as ->. done.
Qed.

Lemma discover_fold_get (attrs : list (string * Attr)) d (h : string) :
  dict_get (fold_left discover_step attrs d) h =
  match last (filter (fun bm => hm_hook_type (snd bm) = h) (omap attr_hook attrs)) with
  | Some bm => Some bm
  | None => dict_get d h
  end.
Proof.
  revert d. induction attrs as [|a attrs IH]; intros d; [done|].
  cbn [fold_left]. rewrite IH, discover_step_attr_hook.
  cbn [omap list_omap]. destruct (attr_hook a) as [bm|]; [|done].
  rewrite filter_cons, dict_get_set.
  destruct (last (filter _ (omap attr_hook attrs))) as [y|] eqn:Hl;
    repeat case_decide; try rewrite last_cons_opt; rewrite ?Hl; congruence.
Qed.

(** X12.  For each hook point, the handler a [@plugin] instance's adapter
    dispatches is (wrapped) the body of the last public attribute, in
    [dir(instance)] order, whose [@hook] names that point; when several
    methods declare the same point, the earlier ones are silently dropped,
    and with none the adapter has no handler for it. *)
Theorem class_adapter_last_wins (inst : PluginInstance) (plugin_meta : PluginMeta)
    (priority_override : option Z) (h : string) :
  plugin_hook (_ClassPluginAdapter inst plugin_meta priority_override) h =
  option_map (fun bm => wrap_body (fst bm))
    (last (filter (fun bm => hm_hook_type (snd bm) = h) (omap attr_hook (inst_dir inst)))).
Proof.
  cbn [_ClassPluginAdapter plugin_hook]. rewrite discover_hook_methods_fold, discover_fold_get.
  by destruct (last _) as [[body m]|].
Qed.

(* ------------------------------------------------------------------ *)
(** ** pluginset.py: what [flatten] yields *)

Lemma flatten_no_sets_aux (ps : PluginSet) :
  Forall (fun x => is_set (fst x) = false) (flatten ps).
Proof.
  revert ps. fix IH 1. intros [o n items p].
  induction items as [|i rest IHl]; [constructor|].
  rewrite flatten_cons. apply Forall_app. split; [|exact IHl].
  destruct i as [f|inst|pl|inner|r]; try (constructor; [done | constructor]).
  apply IH.
Qed.

(** X13.  Flattening a group, however deeply nested, never yields a group:
    every pair [register] hands to [_register_single] for a [PluginSet] holds
    a function, an instance, a plugin or an unrecognised object. *)
Theorem flatten_yields_no_groups (ps : PluginSet) :
  Forall (fun x => is_set (fst x) = false) (flatten ps).
Proof. apply flatten_no_sets_aux. Qed.

(* ------------------------------------------------------------------ *)
(** ** context.py: [build_global_context] and base.py's accessors *)

(** A Python attribute value as far as it matters here: a string, [None], or
    any other object. *)
Inductive PyValue :=
  | PyStr (s : string)
  | PyNone
  | PyOther (repr : string).

(** A backend object: identity and its [model_id] attribute, [None] when the
    object has no such attribute (a present attribute may itself be [None]). *)
Record Backend := mkBackend {
  backend_oid : nat;
  backend_model_id : option PyValue;
}.

(** [getattr(backend, "model_id", "unknown")]: the default applies only when
    the attribute is missing. *)
Definition getattr_model_id (b : Backend) : PyValue :=
  match backend_model_id b with
  | Some v => v
  | None => PyStr "unknown"
  end.

(** The values a [GlobalContext.state] entry can hold here: the session, the
    backend and the Mellea context objects (by identity), strings, [None],
    and any other keyword value. *)
Inductive CtxValue :=
  | VSession (oid : nat)
  | VBackend (b : Backend)
  | VContext (oid : nat)
  | VStr (s : string)
  | VNone
  | VOther (repr : string).

(** A Python value stored as a [GlobalContext.state] entry. *)
Definition ctx_of_py (v : PyValue) : CtxValue :=
  match v with
  | PyStr s => VStr s
  | PyNone => VNone
  | PyOther r => VOther r
  end.

Record GlobalContext := mkGlobalContext {
  gc_request_id : string;
  gc_state : gmap string CtxValue;
}.

(** [build_global_context(session=..., backend=..., context=...,
    request_id=..., **extra_fields)]; [state.update(extra_fields)] lets the
    extra fields win, which is stdpp's left-biased union. *)
Definition build_global_context (session : option nat) (backend : option Backend)
    (context : option nat) (request_id : string) (extra_fields : gmap string CtxValue)
  : GlobalContext :=
  let state : gmap string CtxValue := ∅ in
  let state := match session with
               | Some s => <["session" := VSession s]> state
               | None => state
               end in
  let state := match backend with
               | Some b => <["backend_name" := ctx_of_py (getattr_model_id b)]>
                             (<["backend" := VBackend b]> state)
               | None => state
               end in
  let state := match context with
               | Some c => <["context" := VContext c]> state
               | None => state
               end in
  mkGlobalContext request_id (extra_fields ∪ state).

(** The call [invoke_hook] makes: [session_id=session_id] joins the caller's
    [**context_fields]. *)
Definition dispatch_global_context (session_id : option string) (session : option nat)
    (backend : option Backend) (context : option nat) (request_id : string)
    (context_fields : gmap string CtxValue) : GlobalContext :=
  build_global_context session backend context request_id
    (<["session_id" := match session_id with Some s => VStr s | None => VNone end]>
       context_fields).

(** [MelleaPlugin.get_session], [get_backend], [get_mellea_context]:
    [context.global_context.state.get(...)]. *)
Definition get_session (gc : GlobalContext) : option CtxValue := gc_state gc !! "session".
Definition get_backend (gc : GlobalContext) : option CtxValue := gc_state gc !! "backend".
Definition get_mellea_context (gc : GlobalContext) : option CtxValue :=
  gc_state gc !! "context".

(** The keys [invoke_hook]'s own parameters take, which its [**context_fields]
    can therefore never hold. *)
Definition invoke_hook_params : list string :=
  ["hook_type"; "payload"; "session_id"; "session"; "backend"; "context"; "request_id"].

Lemma build_state_lookup (session : option nat) (backend : option Backend)
    (context : option nat) (rid : string) (extra : gmap string CtxValue) (k : string) :
  gc_state (build_global_context session backend context rid extra) !! k =
  match extra !! k with
  | Some v => Some v
  | None =>
      if decide (k = "session") then option_map VSession session
      else if decide (k = "backend") then option_map VBackend backend
      else if decide (k = "backend_name") then
        option_map (fun b => ctx_of_py (getattr_model_id b)) backend
      else if decide (k = "context") then option_map VContext context
      else None
  end.
Proof.
  cbn [build_global_context gc_state]. rewrite lookup_union.
  destruct (extra !! k) as [v|]; [by destruct (_ !! k)|]. rewrite option_union_left_id.
  destruct (decide (k = "session")) as [->|H1];
    [by destruct session, backend, context|].
  destruct (decide (k = "backend")) as [->|H2];
    [by destruct session, backend, context|].
  destruct (decide (k = "backend_name")) as [->|H3];
    [by destruct session, backend, context|].
  destruct (decide (k = "context")) as [->|H4];
    [by destruct session, backend, context|].
  destruct session, backend, context;
    rewrite ?lookup_insert_ne by congruence; apply lookup_empty.
Qed.

(** X14.  The [GlobalContext] [invoke_hook] hands to the plugins carries the
    request id, and the session, backend and Mellea context exactly when they
    were passed (so [get_session], [get_backend] and [get_mellea_context] read
    them back, [None] otherwise); it always has a ["session_id"] entry
    ([None] when unscoped); ["backend_name"] is the backend's [model_id]
    attribute whatever its value ([None] included), or ["unknown"] when the
    backend has no such attribute, unless the caller passed its own; and any other key holds
    what the caller passed in [**context_fields]. *)
Theorem dispatch_global_context_fields (sid : option string) (session : option nat)
    (backend : option Backend) (context : option nat) (rid : string)
    (fields : gmap string CtxValue) :
  (forall k, k ∈ invoke_hook_params -> fields !! k = None) ->
  let gc := dispatch_global_context sid session backend context rid fields in
  gc_request_id gc = rid /\
  get_session gc = option_map VSession session /\
  get_backend gc = option_map VBackend backend /\
  get_mellea_context gc = option_map VContext context /\
  gc_state gc !! "session_id" = Some (match sid with Some s => VStr s | None => VNone end) /\
  gc_state gc !! "backend_name" =
    match fields !! "backend_name" with
    | Some v => Some v
    | None => option_map (fun b => ctx_of_py (getattr_model_id b)) backend
    end /\
  (forall k, k ∉ ["session"; "backend"; "backend_name"; "context"; "session_id"] ->
     gc_state gc !! k = fields !! k).
Proof.
  intros Hp. cbv zeta. unfold dispatch_global_context, get_session, get_backend,
    get_mellea_context.
  assert (Hin : forall k, k ∈ invoke_hook_params ->
            <["session_id" := match sid with Some s => VStr s | None => VNone end]> fields
              !! k = None \/ k = "session_id").
  { intros k Hk. destruct (decide (k = "session_id")) as [->|Hne]; [by right|].
    left. rewrite lookup_insert_ne by congruence. by apply Hp. }
  split; [done|].
  rewrite !build_state_lookup.
  rewrite (lookup_insert_ne _ "session_id" "session") by done.
  rewrite (lookup_insert_ne _ "session_id" "backend") by done.
  rewrite (lookup_insert_ne _ "session_id" "context") by done.
  rewrite (lookup_insert_ne _ "session_id" "backend_name") by done.
  rewrite (Hp "session"), (Hp "backend"), (Hp "context")
    by (unfold invoke_hook_params; set_solver).
  split; [done|]. split; [done|]. split; [done|].
  split; [by rewrite lookup_insert_eq|].
  split; [by destruct (fields !! "backend_name")|].
  intros k Hk. rewrite build_state_lookup.
  assert (k <> "session" /\ k <> "backend" /\ k <> "backend_name" /\ k <> "context" /\
          k <> "session_id") as (H1 & H2 & H3 & H4 & H5) by set_solver.
  rewrite lookup_insert_ne by congruence.
  destruct (fields !! k); [done|]. by rewrite !decide_False.
Qed.

(** A backend whose [model_id] attribute is set to [None]. *)
Definition unnamed_backend : Backend := mkBackend 5 (Some PyNone).

Lemma dispatch_global_context_fields_witness :
  let fields : gmap string CtxValue := <["user" := VStr "alice"]> ∅ in
  (forall k, k ∈ invoke_hook_params -> fields !! k = None) /\
  (let gc := dispatch_global_context None (Some 1%nat) (Some unnamed_backend) None "req-1" fields in
   gc_request_id gc = "req-1" /\
   get_session gc = Some (VSession 1%nat) /\
   get_backend gc = Some (VBackend unnamed_backend) /\
   get_mellea_context gc = None /\
   gc_state gc !! "session_id" = Some VNone /\
   gc_state gc !! "backend_name" = Some VNone /\
   (forall k, k ∉ ["session"; "backend"; "backend_name"; "context"; "session_id"] ->
      gc_state gc !! k = fields !! k)).
Proof.
  cbv zeta.
  assert (Hp : forall k, k ∈ invoke_hook_params ->
            (<["user" := VStr "alice"]> ∅ : gmap string CtxValue) !! k = None).
  { intros k Hk. unfold invoke_hook_params in Hk.
    rewrite lookup_insert_ne; [apply lookup_empty|].
    intros <-. repeat (apply elem_of_cons in Hk as [Hk|Hk]; [discriminate|]).
    by apply not_elem_of_nil in Hk. }
  split; [exact Hp|].
  apply (dispatch_global_context_fields None (Some 1%nat) (Some unnamed_backend) None "req-1" _ Hp).
Defined.

(* ------------------------------------------------------------------ *)
(** ** types.py: [_build_hook_registry] and [_register_mellea_hooks] *)

(** [_build_hook_registry()]: hook type to (payload class, result class),
    classes by name, in the dict's order. *)
Definition _build_hook_registry : list (string * (string * string)) :=
  [(hook_value SESSION_PRE_INIT, ("SessionPreInitPayload", "PluginResult"));
   (hook_value SESSION_POST_INIT, ("SessionPostInitPayload", "PluginResult"));
   (hook_value SESSION_RESET, ("SessionResetPayload", "PluginResult"));
   (hook_value SESSION_CLEANUP, ("SessionCleanupPayload", "PluginResult"));
   (hook_value COMPONENT_PRE_CREATE, ("ComponentPreCreatePayload", "PluginResult"));
   (hook_value COMPONENT_POST_CREATE, ("ComponentPostCreatePayload", "PluginResult"));
   (hook_value COMPONENT_PRE_EXECUTE, ("ComponentPreExecutePayload", "PluginResult"));
   (hook_value COMPONENT_POST_SUCCESS, ("ComponentPostSuccessPayload", "PluginResult"));
   (hook_value COMPONENT_POST_ERROR, ("ComponentPostErrorPayload", "PluginResult"));
   (hook_value GENERATION_PRE_CALL, ("GenerationPreCallPayload", "PluginResult"));
   (hook_value GENERATION_POST_CALL, ("GenerationPostCallPayload", "PluginResult"));
   (hook_value GENERATION_STREAM_CHUNK, ("GenerationStreamChunkPayload", "PluginResult"));
   (hook_value VALIDATION_PRE_CHECK, ("ValidationPreCheckPayload", "PluginResult"));
   (hook_value VALIDATION_POST_CHECK, ("ValidationPostCheckPayload", "PluginResult"));
   (hook_value SAMPLING_LOOP_START, ("SamplingLoopStartPayload", "PluginResult"));
   (hook_value SAMPLING_ITERATION, ("SamplingIterationPayload", "PluginResult"));
   (hook_value SAMPLING_REPAIR, ("SamplingRepairPayload", "PluginResult"));
   (hook_value SAMPLING_LOOP_END, ("SamplingLoopEndPayload", "PluginResult"))].

(** The framework's hook registry ([get_hook_registry()]) is not part of the
    sources: it is taken abstractly, through the two methods the code calls
    and what they are relied on to do, [is_registered] telling whether a hook
    type has an entry and [register_hook] writing the entry of one type. *)
Section MelleaHooks.
Variable HookRegistry : Type.
Variable hook_entry : HookRegistry -> string -> option (string * string).
Variable is_registered : HookRegistry -> string -> bool.
Variable register_hook : HookRegistry -> string -> string -> string -> HookRegistry.
Hypothesis is_registered_entry :
  forall r k, is_registered r k = bool_decide (is_Some (hook_entry r k)).
Hypothesis register_hook_entry : forall r k p c k',
  hook_entry (register_hook r k p c) k' =
  if decide (k' = k) then Some (p, c) else hook_entry r k'.

(** [_register_mellea_hooks()], on the module cache [_HOOK_REGISTRY] and the
    framework's registry. *)
Definition _register_mellea_hooks (_HOOK_REGISTRY : list (string * (string * string)))
    (registry : HookRegistry) : list (string * (string * string)) * HookRegistry :=
  let cache := match _HOOK_REGISTRY with [] => _build_hook_registry | _ => _HOOK_REGISTRY end in
  (cache,
   fold_left (fun r '(hook_type, (payload_cls, result_cls)) =>
                if is_registered r hook_type then r
                else register_hook r hook_type payload_cls result_cls)
             cache registry).

Lemma register_hooks_fold_entry (l : list (string * (string * string))) (r : HookRegistry)
    (k : string) :
  hook_entry (fold_left (fun r '(hook_type, (payload_cls, result_cls)) =>
                if is_registered r hook_type then r
                else register_hook r hook_type payload_cls result_cls) l r) k =
  match hook_entry r k with Some e => Some e | None => dict_get l k end.
Proof.
  revert r. induction l as [|[ht [p c]] l IH]; intros r; cbn [fold_left dict_get].
  - by destruct (hook_entry r k).
  - rewrite IH. rewrite is_registered_entry.
    destruct (bool_decide_reflect (is_Some (hook_entry r ht))) as [[e He]|Hn].
    + destruct (decide (k = ht)) as [->|Hne]; [by rewrite He|].
      by destruct (hook_entry r k).
    + rewrite register_hook_entry.
      destruct (decide (k = ht)) as [->|Hne].
      * destruct (hook_entry r ht) eqn:E; [exfalso; apply Hn; by eexists|done].
      * done.
Qed.

Lemma register_hooks_fold_noop (l : list (string * (string * string))) (r : HookRegistry) :
  (forall k, k ∈ map fst l -> is_registered r k = true) ->
  fold_left (fun r '(hook_type, (payload_cls, result_cls)) =>
               if is_registered r hook_type then r
               else register_hook r hook_type payload_cls result_cls) l r = r.
Proof.
  induction l as [|[ht [p c]] l IH]; intros Hall; [done|]. cbn [fold_left].
  rewrite (Hall ht) by (apply elem_of_cons; by left).
  apply IH. intros k Hk. apply Hall. cbn. apply elem_of_cons. by right.
Qed.
End MelleaHooks.

Lemma dict_get_in {V} (l : list (string * V)) (k : string) :
  k ∈ map fst l -> is_Some (dict_get l k).
Proof.
  induction l as [|[k' v] l IH]; cbn [map fst dict_get]; intros Hk;
    [by apply not_elem_of_nil in Hk|].
  case_decide; [by eexists|]. apply IH.
  apply elem_of_cons in Hk as [->|Hk]; [done|exact Hk].
Qed.

(** X15.  [_register_mellea_hooks()] fills the module cache with the 18
    session, component, generation, validation and sampling hook types and
    registers each of them that the framework's registry does not know yet,
    never replacing an existing registration; the tool, adapter, context and
    error hook types are left as they were; and a second call changes
    nothing. *)
Theorem register_mellea_hooks_idempotent (HookRegistry : Type)
    (hook_entry : HookRegistry -> string -> option (string * string))
    (is_registered : HookRegistry -> string -> bool)
    (register_hook : HookRegistry -> string -> string -> string -> HookRegistry)
    (Hreg : forall r k, is_registered r k = bool_decide (is_Some (hook_entry r k)))
    (Hset : forall r k p c k', hook_entry (register_hook r k p c) k' =
              if decide (k' = k) then Some (p, c) else hook_entry r k')
    (cache : list (string * (string * string))) (r : HookRegistry) :
  cache = [] \/ cache = _build_hook_registry ->
  let res := _register_mellea_hooks HookRegistry is_registered register_hook cache r in
  fst res = _build_hook_registry /\
  (forall k, hook_entry (snd res) k =
     match hook_entry r k with Some e => Some e | None => dict_get _build_hook_registry k end) /\
  (forall h, h ∈ [TOOL_PRE_INVOKE; TOOL_POST_INVOKE; ADAPTER_PRE_LOAD; ADAPTER_POST_LOAD;
                  ADAPTER_PRE_UNLOAD; ADAPTER_POST_UNLOAD; CONTEXT_UPDATE; CONTEXT_PRUNE;
                  ERROR_OCCURRED] ->
     hook_entry (snd res) (hook_value h) = hook_entry r (hook_value h)) /\
  _register_mellea_hooks HookRegistry is_registered register_hook (fst res) (snd res) = res.
Proof.
  intros Hc. cbv zeta.
  assert (Hres : _register_mellea_hooks HookRegistry is_registered register_hook cache r =
    (_build_hook_registry,
     fold_left (fun r '(hook_type, (payload_cls, result_cls)) =>
                  if is_registered r hook_type then r
                  else register_hook r hook_type payload_cls result_cls)
               _build_hook_registry r)) by (destruct Hc as [->| ->]; reflexivity).
  rewrite Hres. cbn [fst snd].
  pose proof (register_hooks_fold_entry HookRegistry hook_entry is_registered register_hook
                Hreg Hset _build_hook_registry r) as Hent.
  split; [done|]. split; [exact Hent|]. split.
  - intros h Hh. rewrite Hent.
    assert (Hn : dict_get _build_hook_registry (hook_value h) = None).
    { repeat (apply elem_of_cons in Hh as [-> | Hh]; [reflexivity|]).
      by apply not_elem_of_nil in Hh. }
    rewrite Hn. by destruct (hook_entry r (hook_value h)).
  - unfold _register_mellea_hooks. f_equal.
    apply register_hooks_fold_noop. intros k Hk. rewrite Hreg, Hent.
    apply bool_decide_eq_true.
    destruct (hook_entry r k); [by eexists|].
    by apply dict_get_in.
Qed.

(** A hook registry as a map from hook type to its classes. *)
Definition map_is_registered (r : gmap string (string * string)) (k : string) : bool :=
  bool_decide (is_Some (r !! k)).
Definition map_register_hook (r : gmap string (string * string)) (k p c : string)
  : gmap string (string * string) := <[k := (p, c)]> r.

(** A registry where another application already registered
    ["session_pre_init"] with its own payload class. *)
Definition custom_hook_registry : gmap string (string * string) :=
  <["session_pre_init" := ("CustomPayload", "PluginResult")]> ∅.

Lemma register_mellea_hooks_idempotent_witness :
  let res := _register_mellea_hooks _ map_is_registered map_register_hook [] custom_hook_registry in
  fst res = _build_hook_registry /\
  (forall k, snd res !! k =
     match custom_hook_registry !! k with
     | Some e => Some e
     | None => dict_get _build_hook_registry k
     end) /\
  (forall h, h ∈ [TOOL_PRE_INVOKE; TOOL_POST_INVOKE; ADAPTER_PRE_LOAD; ADAPTER_POST_LOAD;
                  ADAPTER_PRE_UNLOAD; ADAPTER_POST_UNLOAD; CONTEXT_UPDATE; CONTEXT_PRUNE;
                  ERROR_OCCURRED] ->
     snd res !! hook_value h = custom_hook_registry !! hook_value h) /\
  _register_mellea_hooks _ map_is_registered map_register_hook (fst res) (snd res) = res.
Proof.
  apply (register_mellea_hooks_idempotent (gmap string (string * string)) (fun r k => r !! k)
           map_is_registered map_register_hook).
  - intros r k. reflexivity.
  - intros r k p c k'. unfold map_register_hook.
    destruct (decide (k' = k)) as [->|Hne];
      [apply lookup_insert_eq | by apply lookup_insert_ne].
  - by left.
Defined.

(* ------------------------------------------------------------------ *)
(** ** The invariant over every sequence of calls *)

(** The states a program reaches from the import-time state by calling the
    modelled entry points in any order, [initialize_plugins] apart. *)
Inductive reachable : State -> Prop :=
  | reach_init : reachable init_state
  | reach_register items sid st :
      reachable st -> reachable (fst (register items sid st))
  | reach_deregister s st :
      reachable st -> reachable (fst (deregister_session_plugins s st))
  | reach_shutdown st : reachable st -> reachable (fst (shutdown_plugins st))
  | reach_invoke h p sid rid st :
      reachable st -> reachable (fst (invoke_hook h p sid rid st))
  | reach_set_enter ps st : reachable st -> reachable (fst (PluginSet__enter__ ps st))
  | reach_set_exit ps st : reachable st -> reachable (fst (PluginSet__exit__ ps st))
  | reach_cm_enter inst st : reachable st -> reachable (fst (_plugin_cm_enter inst st))
  | reach_cm_exit inst st : reachable st -> reachable (fst (_plugin_cm_exit inst st))
  | reach_mp_enter oid pl st :
      reachable st -> reachable (fst (MelleaPlugin__enter__ oid pl st))
  | reach_mp_exit oid st : reachable st -> reachable (fst (MelleaPlugin__exit__ oid st)).

Lemma invoke_hook_state (h : HookType) (p : Payload) (sid : option string) (rid : string)
    (st : State) :
  fst (invoke_hook h p sid rid st) = st.
Proof.
  unfold invoke_hook. destruct (negb (_plugins_enabled st)); [done|].
  destruct (_plugin_manager st) as [reg|]; [|done].
  destruct (negb (has_hooks_for reg (hook_value h))); [done|].
  destruct (cf_invoke_hook _ _ _) as [res ran].
  by destruct (continue_processing res), (violation res).
Qed.

Lemma wf_register (items : list Item) (sid : option string) (st : State) :
  wf st -> wf (fst (register items sid st)).
Proof. intros Hwf. rewrite register_flat. by apply wf_register_pairs. Qed.

Lemma wf_scope_enter (oid : nat) (pairs : list (Item * option Z)) (msg : string) (st : State) :
  wf st -> wf (fst (scope_enter oid pairs msg st)).
Proof.
  intros Hwf. unfold scope_enter. destruct (_scope_ids st !! oid); [done|].
  apply wf_register_pairs. by apply wf_scope_fields.
Qed.

Lemma wf_scope_exit (oid : nat) (st : State) :
  wf st -> wf (fst (scope_exit oid st)).
Proof.
  intros Hwf. unfold scope_exit. destruct (_scope_ids st !! oid); [|done].
  apply P_bind; [intros; by apply wf_deregister| |done].
  intros _ s' Hs. unfold modify. cbn [fst]. by destruct s'.
Qed.

(** X16.  Along any sequence of [register], [deregister_session_plugins],
    [shutdown_plugins], [invoke_hook] and the [__enter__]/[__exit__] of
    groups, [@plugin] instances and [MelleaPlugin]s, the module state keeps
    its invariant: without a manager no scope tracks anything, and with one
    plugins are enabled, every name a scope tracks is registered, and no
    name is tracked by two scopes. *)
Theorem reachable_wf (st : State) : reachable st -> wf st.
Proof.
  induction 1.
  - apply wf_init.
  - by apply wf_register.
  - by apply wf_deregister.
  - done.
  - by rewrite invoke_hook_state.
  - by apply wf_plugin_set_enter.
  - by apply wf_plugin_set_exit.
  - by apply wf_cm_enter.
  - by apply wf_cm_exit.
  - rewrite mp_enter_eq. by apply wf_scope_enter.
  - rewrite mp_exit_eq. by apply wf_scope_exit.
Qed.

Lemma reachable_wf_witness :
  reachable (fst (MelleaPlugin__enter__ 9 auth_adapter (fst (shutdown_plugins state_AB)))) /\
  wf (fst (MelleaPlugin__enter__ 9 auth_adapter (fst (shutdown_plugins state_AB)))).
Proof.
  assert (H : reachable (fst (MelleaPlugin__enter__ 9 auth_adapter
                                (fst (shutdown_plugins state_AB))))).
  { apply reach_mp_enter, reach_shutdown. unfold state_AB, state_A.
    apply reach_set_enter, reach_set_enter, reach_init. }
  split; [exact H | exact (reachable_wf _ H)].
Defined.
